(** * Vegetation sub-model of the delta simulator (02_deltas/VegetationModel.py)

    A shallow embedding of the [VegetationModel] class: the fields it keeps
    on the host's grid, its three hooks into the host's time step
    ([hook_run_water_iteration], [hook_after_route_sediment],
    [topo_diffusion]) and its set-up hook [hook_after_create_domain].

    Numbers.  The program computes with float64 scalars and arrays.  They are
    modelled here as exact rationals [Q]: a decimal literal of the program is
    the rational it denotes, comparisons are the order of [Q], and the
    program's numerical equality test [==] is [Qeq].  Rounding, infinities
    and NaN are outside the model.

    Arrays.  A 2-D [numpy] array is a list of rows.  Element-wise operations
    zip the rows; the host creates every field with the shape of the grid
    ([zeros_like (depth)]), and statements about one cell [(i, j)] name the
    value that each field read by the code holds there. *)

From Stdlib Require Import QArith Qabs Qminmax Lqa ZArith Lia.
From stdpp Require Import base option list strings gmap.

Local Open Scope Q_scope.

(** ** Scalars *)

Definition Qlt_bool (x y : Q) : bool := negb (Qle_bool y x).

(** [np.clip (x, lo, hi)] on one element: [minimum (hi, maximum (x, lo))]. *)
Definition Qclip (x lo hi : Q) : Q := Qmin hi (Qmax x lo).

(** ** Arrays *)

Module Np.

Abbreviation ndarray A := (list (list A)) (only parsing).

(** [a[i, j]], when the index is inside the array. *)
Definition cell {A} (a : ndarray A) (i j : nat) : option A :=
  row ← a !! i; row !! j.

(** Element-wise application of a scalar function, as in [np.abs (a)],
    [a >= s], [s * a + t]. *)
Definition amap {A B} (f : A -> B) (a : ndarray A) : ndarray B :=
  fmap (M:=list) (fmap (M:=list) f) a.

(** Element-wise combination of two arrays, as in [a - b], [a * b],
    [np.logical_and (a, b)]. *)
Definition amap2 {A B C} (f : A -> B -> C) (a : ndarray A) (b : ndarray B)
  : ndarray C :=
  zip_with (zip_with f) a b.

Definition zeros_like (a : ndarray Q) : ndarray Q := amap (fun _ => 0) a.
Definition ones_like (a : ndarray Q) : ndarray Q := amap (fun _ => 1) a.

Definition abs : ndarray Q -> ndarray Q := amap Qabs.
Definition clip (a : ndarray Q) (lo hi : Q) : ndarray Q :=
  amap (fun x => Qclip x lo hi) a.

Definition logical_and : ndarray bool -> ndarray bool -> ndarray bool :=
  amap2 andb.
Definition logical_or : ndarray bool -> ndarray bool -> ndarray bool :=
  amap2 orb.

Definition add : ndarray Q -> ndarray Q -> ndarray Q := amap2 Qplus.
Definition sub : ndarray Q -> ndarray Q -> ndarray Q := amap2 Qminus.
Definition mul : ndarray Q -> ndarray Q -> ndarray Q := amap2 Qmult.

(** [a[mask] = s] for a scalar [s]. *)
Definition fill_where {A} (a : ndarray A) (mask : ndarray bool) (s : A)
  : ndarray A :=
  amap2 (fun x (m : bool) => if m then s else x) a mask.

(** [a[mask] = src[mask]] for arrays of one shape: the selected cells of
    [a] take the values of the same cells of [src]. *)
Definition assign_where {A} (a : ndarray A) (mask : ndarray bool)
    (src : ndarray A) : ndarray A :=
  amap2 (fun x (ms : bool * A) => if ms.1 then ms.2 else x)
        a (amap2 pair mask src).

(** [a[0, :] = s]. *)
Definition fill_row0 {A} (a : ndarray A) (s : A) : ndarray A :=
  match a with
  | [] => []
  | row :: rows => fmap (M:=list) (fun _ => s) row :: rows
  end.

(** Every cell satisfies [P]. *)
Definition all {A} (P : A -> Prop) (a : ndarray A) : Prop :=
  Forall (Forall P) a.

(** Same shape and numerically equal cells. *)
Definition eqv : ndarray Q -> ndarray Q -> Prop := Forall2 (Forall2 Qeq).

(** [a.shape == (L, W)]. *)
Definition has_shape {A} (L W : nat) (a : ndarray A) : Prop :=
  length a = L /\ Forall (fun row => length row = W) a.

End Np.

(** ** [scipy.ndimage.convolve (input, weights, mode='constant')]

    The library routine the diffusion step calls, for 2-D arrays: cell
    [(i, j)] of the result is the sum over the kernel entries [(p, q)] of
    [weights[p, q] * input[i + kh/2 - p, j + kw/2 - q]], where [kh] and [kw]
    are the kernel's height and width and the input reads as [0] outside
    its bounds ([mode='constant'], [cval=0.0]).  The result has the shape
    of [input]. *)

Module Ndimage.

Definition Qsum (l : list Q) : Q := foldr Qplus 0 l.

(** The input extended by zeros. *)
Definition padded (input : Np.ndarray Q) (i j : Z) : Q :=
  if ((i <? 0) || (j <? 0))%Z then 0
  else default 0 (Np.cell input (Z.to_nat i) (Z.to_nat j)).

Definition convolve_at (input weights : Np.ndarray Q) (i j : nat) : Q :=
  let kh := Z.of_nat (length weights) in
  let kw := Z.of_nat (length (default [] (head weights))) in
  Qsum (imap (fun p wrow =>
          Qsum (imap (fun q w =>
                  w * padded input
                        (Z.of_nat i + kh / 2 - Z.of_nat p)
                        (Z.of_nat j + kw / 2 - Z.of_nat q))
                wrow))
        weights).

Definition convolve (input weights : Np.ndarray Q) : Np.ndarray Q :=
  imap (fun i row => imap (fun j _ => convolve_at input weights i j) row)
       input.

End Ndimage.

(** ** The host model

    The attributes of [pyDeltaRCM.DeltaModel] that the vegetation code reads
    or writes, and the YAML parameters declared by [hook_import_files]. *)

Record DeltaModel : Type := mkDeltaModel {
  depth : Np.ndarray Q;
  eta : Np.ndarray Q;
  eta0 : Np.ndarray Q;
  qs : Np.ndarray Q;
  cf : Np.ndarray Q;
  mod_water_weight : Np.ndarray Q;
  cell_type : Np.ndarray Z;
  kernel1 : Np.ndarray Q;
  kernel2 : Np.ndarray Q;
  diffusion_multiplier : Q;
  N_crossdiff : nat;
  dry_depth : Q;
  _dt : Q;
  H_SL : Q;
  SLR : Q;
  vegetation : bool;
  p_veg_d_root : Q;
  p_veg_d_stem : Q;
  p_veg_K : Q;
  p_veg_r : Q;
  p_veg_est_flood_dur : Q;
  p_veg_est_inter_dur : Q;
  p_veg_est_depth : Q;
  p_veg_est_roc : Q;
  p_veg_est_init : Q
}.

Definition set_eta (v : Np.ndarray Q) (m : DeltaModel) : DeltaModel :=
  mkDeltaModel (depth m) v (eta0 m) (qs m) (cf m) (mod_water_weight m)
    (cell_type m) (kernel1 m) (kernel2 m) (diffusion_multiplier m)
    (N_crossdiff m) (dry_depth m) (_dt m) (H_SL m) (SLR m) (vegetation m)
    (p_veg_d_root m) (p_veg_d_stem m) (p_veg_K m) (p_veg_r m)
    (p_veg_est_flood_dur m) (p_veg_est_inter_dur m) (p_veg_est_depth m)
    (p_veg_est_roc m) (p_veg_est_init m).

Definition set_cf (v : Np.ndarray Q) (m : DeltaModel) : DeltaModel :=
  mkDeltaModel (depth m) (eta m) (eta0 m) (qs m) v (mod_water_weight m)
    (cell_type m) (kernel1 m) (kernel2 m) (diffusion_multiplier m)
    (N_crossdiff m) (dry_depth m) (_dt m) (H_SL m) (SLR m) (vegetation m)
    (p_veg_d_root m) (p_veg_d_stem m) (p_veg_K m) (p_veg_r m)
    (p_veg_est_flood_dur m) (p_veg_est_inter_dur m) (p_veg_est_depth m)
    (p_veg_est_roc m) (p_veg_est_init m).

Definition set_mod_water_weight (v : Np.ndarray Q) (m : DeltaModel)
  : DeltaModel :=
  mkDeltaModel (depth m) (eta m) (eta0 m) (qs m) (cf m) v
    (cell_type m) (kernel1 m) (kernel2 m) (diffusion_multiplier m)
    (N_crossdiff m) (dry_depth m) (_dt m) (H_SL m) (SLR m) (vegetation m)
    (p_veg_d_root m) (p_veg_d_stem m) (p_veg_K m) (p_veg_r m)
    (p_veg_est_flood_dur m) (p_veg_est_inter_dur m) (p_veg_est_depth m)
    (p_veg_est_roc m) (p_veg_est_init m).

Definition set_H_SL (v : Q) (m : DeltaModel) : DeltaModel :=
  mkDeltaModel (depth m) (eta m) (eta0 m) (qs m) (cf m) (mod_water_weight m)
    (cell_type m) (kernel1 m) (kernel2 m) (diffusion_multiplier m)
    (N_crossdiff m) (dry_depth m) (_dt m) v (SLR m) (vegetation m)
    (p_veg_d_root m) (p_veg_d_stem m) (p_veg_K m) (p_veg_r m)
    (p_veg_est_flood_dur m) (p_veg_est_inter_dur m) (p_veg_est_depth m)
    (p_veg_est_roc m) (p_veg_est_init m).

(** ** The vegetation model

    [VegetationModel] subclasses [DeltaModel]: the host's attributes
    ([base]) and the attributes [hook_after_create_domain] adds.  [calls] is
    a ghost log of the entries into the two private methods, latest last;
    the program does not read it. *)

Inductive call : Type :=
  | Call_vegetation_mortality
  | Call_vegetation_growth.

Record VegetationModel : Type := mkVegetationModel {
  base : DeltaModel;
  veg_frac : Np.ndarray Q;
  veg_alpha : Np.ndarray Q;
  veg_d_root : Q;
  veg_d_stem : Q;
  veg_K : Q;
  veg_r : Q;
  eta_change : Np.ndarray Q;
  veg_est_flood_duration : Q;
  veg_est_interflood_duration : Q;
  veg_est_depth : Q;
  veg_est_roc : Q;
  veg_est_init : Q;
  time_since_interflood : Q;
  veg_b : Q;
  veg_A : Q;
  calls : list call
}.

Definition with_base (f : DeltaModel -> DeltaModel) (s : VegetationModel)
  : VegetationModel :=
  mkVegetationModel (f (base s)) (veg_frac s) (veg_alpha s) (veg_d_root s)
    (veg_d_stem s) (veg_K s) (veg_r s) (eta_change s)
    (veg_est_flood_duration s) (veg_est_interflood_duration s)
    (veg_est_depth s) (veg_est_roc s) (veg_est_init s)
    (time_since_interflood s) (veg_b s) (veg_A s) (calls s).

Definition set_veg_frac (v : Np.ndarray Q) (s : VegetationModel)
  : VegetationModel :=
  mkVegetationModel (base s) v (veg_alpha s) (veg_d_root s)
    (veg_d_stem s) (veg_K s) (veg_r s) (eta_change s)
    (veg_est_flood_duration s) (veg_est_interflood_duration s)
    (veg_est_depth s) (veg_est_roc s) (veg_est_init s)
    (time_since_interflood s) (veg_b s) (veg_A s) (calls s).

Definition set_veg_alpha (v : Np.ndarray Q) (s : VegetationModel)
  : VegetationModel :=
  mkVegetationModel (base s) (veg_frac s) v (veg_d_root s)
    (veg_d_stem s) (veg_K s) (veg_r s) (eta_change s)
    (veg_est_flood_duration s) (veg_est_interflood_duration s)
    (veg_est_depth s) (veg_est_roc s) (veg_est_init s)
    (time_since_interflood s) (veg_b s) (veg_A s) (calls s).

Definition set_eta_change (v : Np.ndarray Q) (s : VegetationModel)
  : VegetationModel :=
  mkVegetationModel (base s) (veg_frac s) (veg_alpha s) (veg_d_root s)
    (veg_d_stem s) (veg_K s) (veg_r s) v
    (veg_est_flood_duration s) (veg_est_interflood_duration s)
    (veg_est_depth s) (veg_est_roc s) (veg_est_init s)
    (time_since_interflood s) (veg_b s) (veg_A s) (calls s).

Definition set_time_since_interflood (v : Q) (s : VegetationModel)
  : VegetationModel :=
  mkVegetationModel (base s) (veg_frac s) (veg_alpha s) (veg_d_root s)
    (veg_d_stem s) (veg_K s) (veg_r s) (eta_change s)
    (veg_est_flood_duration s) (veg_est_interflood_duration s)
    (veg_est_depth s) (veg_est_roc s) (veg_est_init s)
    v (veg_b s) (veg_A s) (calls s).

Definition log_call (c : call) (s : VegetationModel) : VegetationModel :=
  mkVegetationModel (base s) (veg_frac s) (veg_alpha s) (veg_d_root s)
    (veg_d_stem s) (veg_K s) (veg_r s) (eta_change s)
    (veg_est_flood_duration s) (veg_est_interflood_duration s)
    (veg_est_depth s) (veg_est_roc s) (veg_est_init s)
    (time_since_interflood s) (veg_b s) (veg_A s) (calls s ++ [c]).

(** ** Exceptions

    Division of Python scalars raises [ZeroDivisionError] on a zero divisor;
    the set-up hook is the only code here that divides scalars.  The range
    of float64 is outside the model: a square or a product that the
    program would round to zero or to infinity is its exact value here.
    The general statements about the set-up hook therefore say that it
    fails on a zero divisor, or what holds whenever it succeeds; that it
    succeeds is stated at the example states only. *)

Inductive exn : Type := ZeroDivisionError.

Inductive result (A : Type) : Type :=
  | Ok (a : A)
  | Raise (e : exn).
Arguments Ok {A} a.
Arguments Raise {A} e.

#[export] Instance result_ret : MRet result := fun A a => Ok a.
#[export] Instance result_bind : MBind result := fun A B f m =>
  match m with
  | Ok a => f a
  | Raise e => Raise e
  end.

(** [x / y] on Python scalars. *)
Definition py_div (x y : Q) : result Q :=
  if Qeq_bool y 0 then Raise ZeroDivisionError else Ok (x / y).

(** ** Constants *)

(** [np.pi], the float constant as Python prints it. *)
Definition pi : Q := 3.141592653589793.

(** Modelled from the spec: [sec_in_day] and [day_in_yr] are imported from
    [pyDeltaRCM.shared_tools], which is not part of the sources; durations
    are "converted from days to seconds" and the growth rate is divided by
    "the number of seconds in a model year", the year of 365.25 days that
    the driver script uses for its own scaling. *)
Definition sec_in_day : Q := 86400.

(** Modelled from the spec: see [sec_in_day]. *)
Definition day_in_yr : Q := 365.25.

(** ** [hook_after_create_domain] *)

Definition hook_after_create_domain (self : DeltaModel)
  : result VegetationModel :=
  let veg_frac_ := Np.zeros_like (depth self) in
  let veg_alpha_ := Np.ones_like (depth self) in
  let veg_d_root_ := p_veg_d_root self in
  let veg_d_stem_ := p_veg_d_stem self in
  let veg_K_ := p_veg_K self in
  veg_r_ ← py_div (p_veg_r self) (sec_in_day * day_in_yr);
  let eta_change_ := Np.zeros_like (depth self) in
  let veg_est_flood_duration_ := p_veg_est_flood_dur self * sec_in_day in
  let veg_est_interflood_duration_ := p_veg_est_inter_dur self * sec_in_day in
  let veg_est_depth_ := p_veg_est_depth self in
  let veg_est_roc_ := p_veg_est_roc self in
  let veg_est_init_ := p_veg_est_init self in
  let time_since_interflood_ := 0 in
  (* threshold for vegetation to affect flow weighting *)
  b1 ← py_div 0.7 veg_d_stem_;
  veg_b_ ← py_div b1 veg_K_;
  (* "coefficient to make vegetation have proper influence" *)
  a1 ← py_div 4 veg_d_stem_;
  a2 ← py_div a1 veg_K_;
  veg_A_ ← py_div (0.88 * 4)
             (pi * veg_d_stem_ ^ 2 * veg_K_ * (a2 - veg_b_));
  mret (mkVegetationModel self veg_frac_ veg_alpha_ veg_d_root_ veg_d_stem_
          veg_K_ veg_r_ eta_change_ veg_est_flood_duration_
          veg_est_interflood_duration_ veg_est_depth_ veg_est_roc_
          veg_est_init_ time_since_interflood_ veg_b_ veg_A_ []).




(** ** [hook_run_water_iteration] *)

Definition hook_run_water_iteration (self : VegetationModel)
  : VegetationModel :=
  (* the new alpha value, from the vegetation density *)
  let self :=
    set_veg_alpha (Np.amap (fun x => -0.099 * x + 0.1) (veg_frac self)) self in
  (* what the weights would be everywhere *)
  let _part1 :=
    Np.amap (fun x => veg_A self * pi * veg_d_stem self ^ 2 * veg_K self
                      * (x - veg_b self))
            (veg_frac self) in
  let _mod_water_weight := Np.amap (fun p => 1 - p / 4) _part1 in
  (* reset everything to 1, then update where veg is above the threshold *)
  let self :=
    with_base (set_mod_water_weight
                 (Np.amap (fun _ => 1) (mod_water_weight (base self)))) self in
  let above := Np.amap (fun x => Qle_bool (veg_b self) x) (veg_frac self) in
  let self :=
    with_base (set_mod_water_weight
                 (Np.assign_where (mod_water_weight (base self)) above
                    _mod_water_weight)) self in
  with_base (set_mod_water_weight
               (Np.clip (mod_water_weight (base self)) 0 1)) self.

(** ** [_vegetation_mortality]

    The quotient [|eta_change| / veg_d_root] is only read at the cells of
    [_where_eta_change], where [veg_d_root] is positive. *)

Definition _vegetation_mortality (self : VegetationModel) : VegetationModel :=
  let self := log_call Call_vegetation_mortality self in
  (* kill all veg where the bed change is above the root depth *)
  let self :=
    set_veg_frac
      (Np.fill_where (veg_frac self)
         (Np.amap (fun x => Qle_bool (veg_d_root self) x)
                  (Np.abs (eta_change self)))
         0) self in
  (* kill all veg anywhere the depth is greater than 1 m *)
  let self :=
    set_veg_frac
      (Np.fill_where (veg_frac self)
         (Np.amap (fun d => Qlt_bool 1 d) (depth (base self)))
         0) self in
  (* the new possible veg frac everywhere, from the elevation change *)
  let _possible_veg_mortality :=
    Np.mul (veg_frac self)
           (Np.amap (fun x => 1 - x / veg_d_root self)
                    (Np.abs (eta_change self))) in
  (* where bed change could reduce vegetation *)
  let _where_eta_change :=
    Np.logical_and
      (Np.amap (fun x => Qlt_bool 0 x) (Np.abs (eta_change self)))
      (Np.amap (fun x => Qlt_bool x (veg_d_root self))
               (Np.abs (eta_change self))) in
  set_veg_frac
    (Np.assign_where (veg_frac self) _where_eta_change
       _possible_veg_mortality) self.

(** ** [_vegetation_growth] *)

Inductive growth_flag : Type := code | paper.

Definition _veg_growth_flag : growth_flag := code.

(** where the elevation change is less than the threshold *)
Definition _where_nochange (self : VegetationModel) : Np.ndarray bool :=
  Np.amap (fun x => Qlt_bool x (veg_est_roc self * veg_d_root self))
          (eta_change self).

(** where the depth of the cell is in the marsh window *)
Definition _where_depth (self : VegetationModel) : Np.ndarray bool :=
  Np.amap (fun d => Qlt_bool d (veg_est_depth self)) (depth (base self)).

Definition _where_depth_and_nochange (self : VegetationModel)
  : Np.ndarray bool :=
  Np.logical_and (_where_depth self) (_where_nochange self).

(** where there is already no vegetation *)
Definition _where_noveg (self : VegetationModel) : Np.ndarray bool :=
  Np.amap (fun x => Qeq_bool x 0) (veg_frac self).

Definition _where_valid (flag : growth_flag) (self : VegetationModel)
  : Np.ndarray bool :=
  match flag with
  | code =>
      (* {[(dry) or ((in wet window) and (no change))] and (no veg)} *)
      let _where_dry :=
        Np.amap (fun d => Qlt_bool d (dry_depth (base self)))
                (depth (base self)) in
      let _where_dry_or_danc :=
        Np.logical_or _where_dry (_where_depth_and_nochange self) in
      Np.logical_and _where_dry_or_danc (_where_noveg self)
  | paper =>
      (* {[(in wet window) and (no change)] and (no veg)} *)
      Np.logical_and (_where_depth_and_nochange self) (_where_noveg self)
  end.

Definition _vegetation_growth (self : VegetationModel) : VegetationModel :=
  let self := log_call Call_vegetation_growth self in
  (* establish with the initial vegetation parameter *)
  let self :=
    set_veg_frac
      (Np.fill_where (veg_frac self) (_where_valid _veg_growth_flag self)
         (veg_est_init self)) self in
  (* the change in vegetation everywhere, over an interflood period *)
  let dveg_frac :=
    Np.amap (fun x => veg_est_interflood_duration self * (1 - x)
                      * veg_r self * x)
            (veg_frac self) in
  let self := set_veg_frac (Np.add (veg_frac self) dveg_frac) self in
  (* sea level rise during the interflood time, not scaled *)
  with_base
    (set_H_SL (H_SL (base self)
               + SLR (base self) * veg_est_interflood_duration self)) self.

(** ** [hook_after_route_sediment] *)

Definition hook_after_route_sediment (self : VegetationModel)
  : VegetationModel :=
  (* change in bed elevation on this timestep *)
  let self :=
    set_eta_change (Np.sub (eta (base self)) (eta0 (base self))) self in
  let self :=
    if vegetation (base self) then
      let self :=
        set_time_since_interflood
          (time_since_interflood self + _dt (base self)) self in
      (* mortality happens every timestep *)
      let self := _vegetation_mortality self in
      (* growth only happens on interflood *)
      if Qle_bool (veg_est_flood_duration self) (time_since_interflood self)
      then
        let self := _vegetation_growth self in
        (* reset the counter to start a new flood period *)
        set_time_since_interflood 0 self
      else self
    else self in
  (* cannot have vegetation fraction outside 0,1 *)
  set_veg_frac (Np.clip (veg_frac self) 0 1) self.

(** ** [topo_diffusion]

    One pass of the loop body, then the loop over [range (N_crossdiff)]. *)

Definition topo_diffusion_pass (self : VegetationModel) : VegetationModel :=
  let m := base self in
  let a := Ndimage.convolve (eta m) (kernel1 m) in
  let b := Ndimage.convolve (qs m) (kernel2 m) in
  let c := Ndimage.convolve (Np.mul (qs m) (eta m)) (kernel2 m) in
  let d := Ndimage.convolve (veg_alpha self) (kernel2 m) in
  let cf_ :=
    Np.mul (Np.amap (fun x => x * diffusion_multiplier m) d)
           (Np.add (Np.sub (Np.mul (qs m) a) (Np.mul (eta m) b)) c) in
  let cf_ :=
    Np.fill_where cf_ (Np.amap (fun t => (t =? -2)%Z) (cell_type m)) 0 in
  let cf_ := Np.fill_row0 cf_ 0 in
  with_base (fun m => set_eta (Np.add (eta m) cf_) (set_cf cf_ m)) self.

Definition topo_diffusion (self : VegetationModel) : VegetationModel :=
  Nat.iter (N_crossdiff (base self)) topo_diffusion_pass self.

(** Modelled from the spec: the host's default diffusion step, which
    [topo_diffusion] overrides, is not part of the sources; its flux is
    [diffusion_multiplier * (qs * a - eta * b + c)] "with the same kernels,
    boundary zeroing, and number of sub-iterations". *)

Definition host_topo_diffusion_pass (m : DeltaModel) : DeltaModel :=
  let a := Ndimage.convolve (eta m) (kernel1 m) in
  let b := Ndimage.convolve (qs m) (kernel2 m) in
  let c := Ndimage.convolve (Np.mul (qs m) (eta m)) (kernel2 m) in
  let cf_ :=
    Np.amap (fun x => diffusion_multiplier m * x)
            (Np.add (Np.sub (Np.mul (qs m) a) (Np.mul (eta m) b)) c) in
  let cf_ :=
    Np.fill_where cf_ (Np.amap (fun t => (t =? -2)%Z) (cell_type m)) 0 in
  let cf_ := Np.fill_row0 cf_ 0 in
  set_eta (Np.add (eta m) cf_) (set_cf cf_ m).

(** Modelled from the spec: the host's loop over its sub-iterations. *)
Definition host_topo_diffusion (m : DeltaModel) : DeltaModel :=
  Nat.iter (N_crossdiff m) host_topo_diffusion_pass m.

(** Modelled from the spec: the host's default diffusion step with its
    flux multiplied, cell by cell, by a field [d]; the kernels, the
    boundary zeroing and the number of sub-iterations are those of
    [host_topo_diffusion]. *)

Definition host_topo_diffusion_pass_scaled (d : Np.ndarray Q)
    (m : DeltaModel) : DeltaModel :=
  let a := Ndimage.convolve (eta m) (kernel1 m) in
  let b := Ndimage.convolve (qs m) (kernel2 m) in
  let c := Ndimage.convolve (Np.mul (qs m) (eta m)) (kernel2 m) in
  let cf_ :=
    Np.mul d
      (Np.amap (fun x => diffusion_multiplier m * x)
               (Np.add (Np.sub (Np.mul (qs m) a) (Np.mul (eta m) b)) c)) in
  let cf_ :=
    Np.fill_where cf_ (Np.amap (fun t => (t =? -2)%Z) (cell_type m)) 0 in
  let cf_ := Np.fill_row0 cf_ 0 in
  set_eta (Np.add (eta m) cf_) (set_cf cf_ m).

(** Modelled from the spec: the loop over the sub-iterations, with the
    same field [d] in each. *)
Definition host_topo_diffusion_scaled (d : Np.ndarray Q) (m : DeltaModel)
  : DeltaModel :=
  Nat.iter (N_crossdiff m) (host_topo_diffusion_pass_scaled d) m.

(** ** [hook_import_files]

    The custom YAML parameters: each entry of the host's
    [subclass_parameters] dictionary holds a type, which is one type name
    or a list of type names, and a default value. *)

Local Open Scope string_scope.

Inductive pyvalue : Type :=
  | PyBool (b : bool)
  | PyInt (n : Z)
  | PyFloat (x : Q).

Inductive type_field : Type :=
  | TypeName (t : string)
  | TypeNames (ts : list string).

Record parameter : Type := mkParameter {
  param_type : type_field;
  param_default : pyvalue
}.

Definition hook_import_files (subclass_parameters : gmap string parameter)
  : gmap string parameter :=
  (* whether to run vegetation *)
  let sp := <["vegetation" := mkParameter (TypeName "bool") (PyBool false)]>
              subclass_parameters in
  (* whether to save vegetation figures *)
  let sp := <["save_veg_frac_figs" :=
                mkParameter (TypeName "bool") (PyBool false)]> sp in
  (* stem rooting depth *)
  let sp := <["p_veg_d_root" :=
                mkParameter (TypeNames ["int"; "float"]) (PyFloat 0.20)]> sp in
  (* stem diameter *)
  let sp := <["p_veg_d_stem" :=
                mkParameter (TypeNames ["int"; "float"]) (PyFloat 0.06)]> sp in
  (* stem density *)
  let sp := <["p_veg_K" :=
                mkParameter (TypeNames ["int"; "float"]) (PyInt 800)]> sp in
  (* growth rate *)
  let sp := <["p_veg_r" :=
                mkParameter (TypeNames ["int"; "float"]) (PyInt 1)]> sp in
  (* flood duration, how often to build vegetation *)
  let sp := <["p_veg_est_flood_dur" :=
                mkParameter (TypeNames ["int"; "float"]) (PyInt 3)]> sp in
  (* interflood duration, how long to build vegetation for *)
  let sp := <["p_veg_est_inter_dur" :=
                mkParameter (TypeNames ["int"; "float"]) (PyInt 100)]> sp in
  (* min depth to establish *)
  let sp := <["p_veg_est_depth" :=
                mkParameter (TypeNames ["int"; "float"]) (PyFloat 0.5)]> sp in
  (* min elev change to establish *)
  let sp := <["p_veg_est_roc" :=
                mkParameter (TypeNames ["int"; "float"]) (PyFloat 0.01)]> sp in
  (* init veg established *)
  <["p_veg_est_init" :=
      mkParameter (TypeNames ["int"; "float"]) (PyFloat 0.05)]> sp.

(** The names [hook_import_files] defines. *)
Definition vegetation_parameter_names : list string :=
  ["vegetation"; "save_veg_frac_figs"; "p_veg_d_root"; "p_veg_d_stem";
   "p_veg_K"; "p_veg_r"; "p_veg_est_flood_dur"; "p_veg_est_inter_dur";
   "p_veg_est_depth"; "p_veg_est_roc"; "p_veg_est_init"].

(** The Python type name of a value. *)
Definition type_name_of (v : pyvalue) : string :=
  match v with
  | PyBool _ => "bool"
  | PyInt _ => "int"
  | PyFloat _ => "float"
  end.

(** The default of a parameter is of the type, or one of the types, the
    parameter declares. *)
Definition default_has_declared_type (p : parameter) : Prop :=
  match param_type p with
  | TypeName t => type_name_of (param_default p) = t
  | TypeNames ts => type_name_of (param_default p) ∈ ts
  end.

(** ** [hook_init_output_file]

    The two dictionaries of the host the hook writes: the figures and the
    grid variables to save.  A variable entry is the list [attribute,
    units, dtype, dimensions]. *)

Record variable_entry : Type := mkVariableEntry {
  var_attribute : string;
  var_units : string;
  var_dtype : string;
  var_dims : list string
}.

Record output_lists : Type := mkOutputLists {
  _save_fig_list : gmap string (list string);
  _save_var_list : gmap string variable_entry
}.

Definition hook_init_output_file (save_veg_frac_figs : bool)
    (self : output_lists) : output_lists :=
  let figs :=
    if save_veg_frac_figs
    then <["veg_frac" := ["veg_frac"]]> (_save_fig_list self)
    else _save_fig_list self in
  (* save the vegetation grid each save_dt w/ a short name *)
  mkOutputLists figs
    (<["veg_frac" := mkVariableEntry "veg_frac" "fraction" "f4"
                       ["time"; "x"; "y"]]> (_save_var_list self)).

Local Close Scope string_scope.

(** ** The transect script (01_dunes/filter_grid.py)

    The five grids are what [np.loadtxt] returns: a two-dimensional array
    for a file of several rows and several columns; a file of a single row
    or a single column is squeezed to a one-dimensional array, and a file
    of a single number to a zero-dimensional one.  [a[5, :]] raises
    [IndexError] on an array of fewer than two dimensions and on a
    two-dimensional array of fewer than six rows.  The result is what the
    script writes out. *)

Inductive loaded_array : Type :=
  | Array0 (v : Q)
  | Array1 (v : list Q)
  | Array2 (a : Np.ndarray Q).

Inductive transect_outcome (A : Type) : Type :=
  | Transects (a : A)
  | IndexError.
Arguments Transects {A} a.
Arguments IndexError {A}.

(** [a[5, :]] *)
Definition row5 (a : loaded_array) : transect_outcome (list Q) :=
  match a with
  | Array2 rows =>
      match rows !! 5%nat with
      | Some row => Transects row
      | None => IndexError
      end
  | Array1 _ | Array0 _ => IndexError
  end.

Record transects : Type := mkTransects {
  x_grd : list Q;
  y_grd : list Q;
  z_grd : list Q;
  veg_grd : list Q;
  ne_grd : list Q
}.

Definition filter_grid (x_o y_o z_o veg_o ne_o : loaded_array)
  : transect_outcome transects :=
  match row5 x_o with
  | IndexError => IndexError
  | Transects x =>
  match row5 y_o with
  | IndexError => IndexError
  | Transects y =>
  match row5 z_o with
  | IndexError => IndexError
  | Transects z =>
  match row5 veg_o with
  | IndexError => IndexError
  | Transects veg =>
  match row5 z_o with
  | IndexError => IndexError
  | Transects z' =>
      Transects (mkTransects x y z veg
                   (fmap (M:=list) (fun v => v - 0.011) z'))
  end end end end end.

(** The array is two-dimensional and has a sixth row. *)
Definition has_sixth_row (a : loaded_array) : Prop :=
  match a with
  | Array2 rows => (6 <= length rows)%nat
  | Array1 _ | Array0 _ => False
  end.

(** ** Cell-wise readings

    What the array code writes at one cell, as a function of the values the
    fields hold at that cell.  The lemmas [mortality_cell], [growth_cell]
    and [water_weight_cell] derive them from the array code above. *)

Definition mortality_at (d_root dc d f : Q) : Q :=
  let f1 := if Qle_bool d_root (Qabs dc) then 0 else f in
  let f2 := if Qlt_bool 1 d then 0 else f1 in
  if Qlt_bool 0 (Qabs dc) && Qlt_bool (Qabs dc) d_root
  then f2 * (1 - Qabs dc / d_root) else f2.

Definition valid_at (self : VegetationModel) (dc d f : Q) : bool :=
  (Qlt_bool d (dry_depth (base self))
   || (Qlt_bool d (veg_est_depth self)
       && Qlt_bool dc (veg_est_roc self * veg_d_root self)))
  && Qeq_bool f 0.

(** One explicit step of logistic growth over an interflood period. *)
Definition logistic_step (self : VegetationModel) (x : Q) : Q :=
  x + veg_est_interflood_duration self * (1 - x) * veg_r self * x.

Definition growth_at (self : VegetationModel) (dc d f : Q) : Q :=
  logistic_step self (if valid_at self dc d f then veg_est_init self else f).

(** The candidate weight of [hook_run_water_iteration]. *)
Definition candidate_weight (self : VegetationModel) (f : Q) : Q :=
  1 - (veg_A self * pi * veg_d_stem self ^ 2 * veg_K self
       * (f - veg_b self) / 4).

(** The weight [hook_run_water_iteration] writes at a cell of fraction
    [f] (lemma [water_weight_cell]). *)
Definition weight_at (self : VegetationModel) (f : Q) : Q :=
  Qclip (if Qle_bool (veg_b self) f then candidate_weight self f else 1) 0 1.

(** The derived coefficients are those [hook_after_create_domain] computes
    from the stem diameter and density. *)
Definition coefficients_as_set_up (self : VegetationModel) : Prop :=
  veg_b self == 0.7 / veg_d_stem self / veg_K self
  /\ veg_A self
     == 0.88 * 4 / (pi * veg_d_stem self ^ 2 * veg_K self
                    * (4 / veg_d_stem self / veg_K self - veg_b self)).

(** The entries into the private methods made by one call of
    [hook_after_route_sediment]. *)
Definition calls_during (self : VegetationModel) : list call :=
  drop (length (calls self)) (calls (hook_after_route_sediment self)).

(** ** Predicates of the diffusion statements *)

(** The fields the diffusion step reads all have the grid's shape. *)
Definition grid_shaped (L W : nat) (self : VegetationModel) : Prop :=
  Np.has_shape L W (eta (base self))
  /\ Np.has_shape L W (qs (base self))
  /\ Np.has_shape L W (cell_type (base self))
  /\ Np.has_shape L W (veg_alpha self).

(** The override on [self] and the host's step on [m] read the same
    sediment flux, cell types, kernels and multiplier. *)
Definition diffusion_inputs_agree (self : VegetationModel) (m : DeltaModel)
  : Prop :=
  qs (base self) = qs m
  /\ cell_type (base self) = cell_type m
  /\ kernel1 (base self) = kernel1 m
  /\ kernel2 (base self) = kernel2 m
  /\ diffusion_multiplier (base self) = diffusion_multiplier m.

(** The factor [d] of the override's flux: the stability field convolved
    with [kernel2]. *)
Definition flux_factor (self : VegetationModel) : Np.ndarray Q :=
  Ndimage.convolve (veg_alpha self) (kernel2 (base self)).

(** ** Example states

    A 3 x 3 grid with the host's 8-neighbour kernels and the default YAML
    parameters, the state the set-up hook makes of it, and a vegetated
    state some time steps later. *)

Definition example_host_with (k2 : Np.ndarray Q) (n_crossdiff : nat)
    (d_root r flood_dur inter_dur est_depth est_roc est_init : Q)
  : DeltaModel :=
  {| depth := [[0.05; 0.3; 2]; [0.3; 0.05; 2]; [0.3; 0.3; 0.6]];
     eta := [[0; 0; 0]; [0; 1; 0]; [0; 0; 0]];
     eta0 := [[-0.1; 0.3; -0.1]; [0; 0; -0.05]; [0; 0.001; -0.25]];
     qs := [[1; 1; 1]; [1; 1; 1]; [1; 1; 1]];
     cf := [[0; 0; 0]; [0; 0; 0]; [0; 0; 0]];
     mod_water_weight := [[1; 1; 1]; [1; 1; 1]; [1; 1; 1]];
     cell_type := [[0; 0; 0]; [0; 0; 0]; [0; 0; -2]]%Z;
     kernel1 := [[1; 1; 1]; [1; -8; 1]; [1; 1; 1]];
     kernel2 := k2;
     diffusion_multiplier := 1;
     N_crossdiff := n_crossdiff;
     dry_depth := 0.1;
     _dt := 25000;
     H_SL := 0;
     SLR := 0.000001;
     vegetation := true;
     p_veg_d_root := d_root;
     p_veg_d_stem := 0.06;
     p_veg_K := 800;
     p_veg_r := r;
     p_veg_est_flood_dur := flood_dur;
     p_veg_est_inter_dur := inter_dur;
     p_veg_est_depth := est_depth;
     p_veg_est_roc := est_roc;
     p_veg_est_init := est_init |}.

(** The state [hook_after_create_domain] builds when it does not raise
    (lemma [hook_after_create_domain_ok]). *)
Definition set_up (self : DeltaModel) : VegetationModel :=
  mkVegetationModel self
    (Np.zeros_like (depth self)) (Np.ones_like (depth self))
    (p_veg_d_root self) (p_veg_d_stem self) (p_veg_K self)
    (p_veg_r self / (sec_in_day * day_in_yr))
    (Np.zeros_like (depth self))
    (p_veg_est_flood_dur self * sec_in_day)
    (p_veg_est_inter_dur self * sec_in_day)
    (p_veg_est_depth self) (p_veg_est_roc self) (p_veg_est_init self)
    0
    (0.7 / p_veg_d_stem self / p_veg_K self)
    (0.88 * 4
     / (pi * p_veg_d_stem self ^ 2 * p_veg_K self
        * (4 / p_veg_d_stem self / p_veg_K self
           - 0.7 / p_veg_d_stem self / p_veg_K self)))
    [].

Definition neighbour_kernel : Np.ndarray Q :=
  [[1; 1; 1]; [1; 0; 1]; [1; 1; 1]].

(** Default parameters, the host's kernels, one diffusion pass. *)
Definition example_host : DeltaModel :=
  example_host_with neighbour_kernel 1 0.20 1 3 100 0.5 0.01 0.05.


(** Vegetated, 250000 s into a flood period, with the elevation change of
    the current time step recorded. *)
Definition example_vegetated : VegetationModel :=
  set_time_since_interflood 250000
    (set_eta_change (Np.sub (eta example_host) (eta0 example_host))
       (set_veg_frac [[0.5; 0.5; 0.5]; [0; 0.4; 0]; [0; 0.05; 1]]
          (set_up example_host))).

(** The vegetated state with another rate-of-change fraction for
    establishment. *)
Definition example_vegetated_with_roc (est_roc : Q) : VegetationModel :=
  set_time_since_interflood 250000
    (set_eta_change (Np.sub (eta example_host) (eta0 example_host))
       (set_veg_frac [[0.5; 0.5; 0.5]; [0; 0.4; 0]; [0; 0.05; 1]]
          (set_up (example_host_with neighbour_kernel 1 0.20 1 3 100 0.5
                     est_roc 0.05)))).

(** Default parameters, vegetation switched off. *)
Definition example_host_off : DeltaModel :=
  {| depth := depth example_host;
     eta := eta example_host;
     eta0 := eta0 example_host;
     qs := qs example_host;
     cf := cf example_host;
     mod_water_weight := mod_water_weight example_host;
     cell_type := cell_type example_host;
     kernel1 := kernel1 example_host;
     kernel2 := kernel2 example_host;
     diffusion_multiplier := diffusion_multiplier example_host;
     N_crossdiff := N_crossdiff example_host;
     dry_depth := dry_depth example_host;
     _dt := _dt example_host;
     H_SL := H_SL example_host;
     SLR := SLR example_host;
     vegetation := false;
     p_veg_d_root := p_veg_d_root example_host;
     p_veg_d_stem := p_veg_d_stem example_host;
     p_veg_K := p_veg_K example_host;
     p_veg_r := p_veg_r example_host;
     p_veg_est_flood_dur := p_veg_est_flood_dur example_host;
     p_veg_est_inter_dur := p_veg_est_inter_dur example_host;
     p_veg_est_depth := p_veg_est_depth example_host;
     p_veg_est_roc := p_veg_est_roc example_host;
     p_veg_est_init := p_veg_est_init example_host |}.

(** Default parameters, no sediment flux anywhere. *)
Definition example_host_no_flux : DeltaModel :=
  {| depth := depth example_host;
     eta := eta example_host;
     eta0 := eta0 example_host;
     qs := [[0; 0; 0]; [0; 0; 0]; [0; 0; 0]];
     cf := cf example_host;
     mod_water_weight := mod_water_weight example_host;
     cell_type := cell_type example_host;
     kernel1 := kernel1 example_host;
     kernel2 := kernel2 example_host;
     diffusion_multiplier := diffusion_multiplier example_host;
     N_crossdiff := 2;
     dry_depth := dry_depth example_host;
     _dt := _dt example_host;
     H_SL := H_SL example_host;
     SLR := SLR example_host;
     vegetation := true;
     p_veg_d_root := p_veg_d_root example_host;
     p_veg_d_stem := p_veg_d_stem example_host;
     p_veg_K := p_veg_K example_host;
     p_veg_r := p_veg_r example_host;
     p_veg_est_flood_dur := p_veg_est_flood_dur example_host;
     p_veg_est_inter_dur := p_veg_est_inter_dur example_host;
     p_veg_est_depth := p_veg_est_depth example_host;
     p_veg_est_roc := p_veg_est_roc example_host;
     p_veg_est_init := p_veg_est_init example_host |}.

(** The total weight of a kernel. *)
Definition kernel_total (k : Np.ndarray Q) : Q :=
  Ndimage.Qsum (fmap (M:=list) Ndimage.Qsum k).

(** ** Several time steps

    Between two calls of [hook_after_route_sediment] the host and the other
    hooks act on the model; each [g] of the list stands for what they do
    before one call. *)

Definition post_route_calls (gs : list (VegetationModel -> VegetationModel))
    (self : VegetationModel) : VegetationModel :=
  foldl (fun s g => hook_after_route_sediment (g s)) self gs.

(** [g] leaves the call log and the vegetation switch alone. *)
Definition keeps_call_log (g : VegetationModel -> VegetationModel) : Prop :=
  forall s,
    calls (g s) = calls s
    /\ vegetation (base (g s)) = vegetation (base s).

(** The entries one call of [hook_after_route_sediment] makes with
    vegetation enabled, by whether growth fires on it. *)
Definition entries_of_call (fired : bool) : list call :=
  if fired then [Call_vegetation_mortality; Call_vegetation_growth]
  else [Call_vegetation_mortality].

(** [g] leaves the vegetation fraction and the vegetation switch alone. *)
Definition keeps_fraction (g : VegetationModel -> VegetationModel) : Prop :=
  forall s,
    veg_frac (g s) = veg_frac s
    /\ vegetation (base (g s)) = vegetation (base s).

(** The vegetation model's own part of a time step before the
    post-routing hook: the pre-routing hook, then the diffusion
    override. *)
Definition example_step (self : VegetationModel) : VegetationModel :=
  topo_diffusion (hook_run_water_iteration self).

(** * Facts about scalars and arrays *)

Lemma Qlt_bool_iff (x y : Q) : Qlt_bool x y = true <-> x < y.
Proof.
  unfold Qlt_bool. rewrite negb_true_iff, <- not_true_iff_false, Qle_bool_iff.
  split; [apply Qnot_le_lt | apply Qlt_not_le].
Qed.

Lemma Qlt_bool_false (x y : Q) : Qlt_bool x y = false <-> y <= x.
Proof.
  unfold Qlt_bool. rewrite negb_false_iff. apply Qle_bool_iff.
Qed.

Lemma Qle_bool_false (x y : Q) : Qle_bool x y = false <-> y < x.
Proof.
  rewrite <- not_true_iff_false, Qle_bool_iff.
  split; [apply Qnot_le_lt | apply Qlt_not_le].
Qed.

Lemma Qeq_bool_false (x y : Q) : Qeq_bool x y = false <-> ~ x == y.
Proof. rewrite <- not_true_iff_false, Qeq_bool_iff. reflexivity. Qed.

Lemma Qclip_bounds (x lo hi : Q) : lo <= hi -> lo <= Qclip x lo hi <= hi.
Proof.
  intros Hlh. unfold Qclip.
  pose proof (Q.max_spec x lo) as Hm.
  pose proof (Q.min_spec hi (Qmax x lo)) as Hn.
  revert Hm Hn.
  generalize (Qmin hi (Qmax x lo)). generalize (Qmax x lo).
  intros m n [[? ?] | [? ?]] [[? ?] | [? ?]]; split; lra.
Qed.

Lemma Qclip_id (x lo hi : Q) : lo <= x -> x <= hi -> Qclip x lo hi == x.
Proof.
  intros H1 H2. unfold Qclip.
  rewrite (Q.max_l x lo) by exact H1. apply Q.min_r. exact H2.
Qed.

Module NpFacts.

Import Np.

Lemma cell_amap {A B} (f : A -> B) (a : ndarray A) i j :
  cell (amap f a) i j = f <$> cell a i j.
Proof.
  unfold cell, amap. rewrite list_lookup_fmap.
  destruct (a !! i) as [row|]; simpl; [apply list_lookup_fmap | reflexivity].
Qed.

Lemma cell_amap2 {A B C} (f : A -> B -> C) a b i j x y :
  cell a i j = Some x -> cell b i j = Some y ->
  cell (amap2 f a b) i j = Some (f x y).
Proof.
  unfold cell, amap2. intros Ha Hb. rewrite lookup_zip_with.
  destruct (a !! i) as [ra|]; simpl in *; [|discriminate].
  destruct (b !! i) as [rb|]; simpl in *; [|discriminate].
  rewrite lookup_zip_with, Ha. simpl. rewrite Hb. reflexivity.
Qed.

Lemma cell_amap2_inv {A B C} (f : A -> B -> C) a b i j z :
  cell (amap2 f a b) i j = Some z ->
  exists x y, cell a i j = Some x /\ cell b i j = Some y /\ z = f x y.
Proof.
  unfold cell, amap2. rewrite lookup_zip_with. intros H.
  destruct (a !! i) as [ra|]; simpl in *; [|discriminate].
  destruct (b !! i) as [rb|]; simpl in *; [|discriminate].
  rewrite lookup_zip_with in H.
  destruct (ra !! j) as [x|]; simpl in *; [|discriminate].
  destruct (rb !! j) as [y|]; simpl in *; [|discriminate].
  exists x, y. inversion H. auto.
Qed.

Lemma cell_fill_where {A} (a : ndarray A) mask s i j x (m : bool) :
  cell a i j = Some x -> cell mask i j = Some m ->
  cell (fill_where a mask s) i j = Some (if m then s else x).
Proof.
  intros Ha Hm. unfold fill_where.
  exact (cell_amap2 (fun x (m : bool) => if m then s else x)
           a mask i j x m Ha Hm).
Qed.

Lemma cell_assign_where {A} (a : ndarray A) mask src i j x (m : bool) y :
  cell a i j = Some x -> cell mask i j = Some m -> cell src i j = Some y ->
  cell (assign_where a mask src) i j = Some (if m then y else x).
Proof.
  intros Ha Hm Hs. unfold assign_where.
  rewrite (cell_amap2 _ a _ i j x (m, y) Ha); [reflexivity|].
  exact (cell_amap2 pair mask src i j m y Hm Hs).
Qed.

Lemma all_amap {A B} (P : B -> Prop) (f : A -> B) (a : ndarray A) :
  (forall x, P (f x)) -> all P (amap f a).
Proof.
  intros Hf. unfold all, amap.
  apply Forall_fmap, Forall_forall. intros row _. simpl.
  apply Forall_fmap, Forall_forall. intros x _. apply Hf.
Qed.

Lemma all_amap_impl {A B} (P : A -> Prop) (R : B -> Prop) (f : A -> B) a :
  (forall x, P x -> R (f x)) -> all P a -> all R (amap f a).
Proof.
  intros Hf Ha. unfold all, amap in *.
  apply Forall_fmap. eapply Forall_impl; [exact Ha|].
  intros row Hrow. simpl. apply Forall_fmap.
  eapply Forall_impl; [exact Hrow|]. intros x Hx. apply Hf, Hx.
Qed.

Lemma all_cell {A} (P : A -> Prop) (a : ndarray A) i j x :
  all P a -> cell a i j = Some x -> P x.
Proof.
  unfold all, cell. intros Ha Hc.
  destruct (a !! i) as [row|] eqn:Hi; simpl in Hc; [|discriminate].
  eapply Forall_lookup_1; [|exact Hc].
  eapply Forall_lookup_1; [exact Ha | exact Hi].
Qed.

Lemma cell_amap_Some {A B} (f : A -> B) (a : ndarray A) i j x :
  cell a i j = Some x -> cell (amap f a) i j = Some (f x).
Proof. intros H. rewrite cell_amap, H. reflexivity. Qed.

End NpFacts.

Import NpFacts.

(** Evaluation of one cell of an array expression from the cells of the
    arrays it is built from. *)
Ltac cell_step :=
  first [ eassumption
        | eapply cell_assign_where
        | eapply cell_fill_where
        | eapply cell_amap2
        | eapply cell_amap_Some ].

Ltac cell_eval :=
  match goal with
  | |- Np.cell ?E ?i ?j = _ =>
      let H := fresh "Hcell" in
      eassert (H : Np.cell E i j = Some _) by (repeat cell_step);
      rewrite H; clear H
  end.

(** * Properties *)

(** ** The post-routing hook keeps the fraction in [0,1] *)

(** C1: whatever the grid state (vegetation enabled or not, any prior
    fraction, any elevation and depth fields), every cell of the vegetation
    fraction field is in [0,1] when [hook_after_route_sediment] returns. *)
Theorem hook_after_route_sediment_frac_range (self : VegetationModel) :
  Np.all (fun x => 0 <= x <= 1) (veg_frac (hook_after_route_sediment self)).
Proof.
  unfold hook_after_route_sediment.
  cbv zeta.
  match goal with
  | |- Np.all _ (veg_frac (set_veg_frac (Np.clip ?a 0 1) _)) =>
      change (Np.all (fun x => 0 <= x <= 1) (Np.clip a 0 1))
  end.
  unfold Np.clip. apply all_amap. intros x.
  apply Qclip_bounds. lra.
Qed.

(** ** Mortality *)

Lemma mortality_cell (self : VegetationModel) i j dc d f :
  Np.cell (eta_change self) i j = Some dc ->
  Np.cell (depth (base self)) i j = Some d ->
  Np.cell (veg_frac self) i j = Some f ->
  Np.cell (veg_frac (_vegetation_mortality self)) i j =
    Some (mortality_at (veg_d_root self) dc d f).
Proof.
  intros Hc Hd Hf.
  cbv beta iota zeta delta
    [_vegetation_mortality set_veg_frac log_call veg_frac eta_change base
     veg_d_root].
  cell_eval. reflexivity.
Qed.

Lemma mortality_at_hard_zero (d_root dc d f : Q) :
  d_root <= Qabs dc \/ 1 < d -> mortality_at d_root dc d f == 0.
Proof.
  intros H. unfold mortality_at.
  destruct (Qle_bool d_root (Qabs dc)) eqn:E1;
    destruct (Qlt_bool 1 d) eqn:E2;
    destruct (Qlt_bool 0 (Qabs dc) && Qlt_bool (Qabs dc) d_root) eqn:E3;
    cbv zeta; try ring;
    (* neither hard rule fired: excluded by the hypothesis *)
    apply Qle_bool_false in E1; apply Qlt_bool_false in E2;
    destruct H; lra.
Qed.

(** C2: after [_vegetation_mortality], a cell whose absolute elevation
    change is at least the root depth, or whose depth is above 1, holds a
    fraction equal to 0 whatever its prior fraction: the proportional
    reduction that follows the two hard-zero rules does not leave it
    nonzero. *)
Theorem vegetation_mortality_hard_zero (self : VegetationModel)
    (i j : nat) (dc d f : Q) :
  Np.cell (eta_change self) i j = Some dc ->
  Np.cell (depth (base self)) i j = Some d ->
  Np.cell (veg_frac self) i j = Some f ->
  veg_d_root self <= Qabs dc \/ 1 < d ->
  exists f', Np.cell (veg_frac (_vegetation_mortality self)) i j = Some f'
             /\ f' == 0.
Proof.
  intros Hc Hd Hf Hkill.
  exists (mortality_at (veg_d_root self) dc d f). split.
  - apply mortality_cell; assumption.
  - apply mortality_at_hard_zero, Hkill.
Qed.

(** ** Flow-weight modulation *)

Lemma water_weight_cell (self : VegetationModel) i j f w0 :
  Np.cell (veg_frac self) i j = Some f ->
  Np.cell (mod_water_weight (base self)) i j = Some w0 ->
  Np.cell (mod_water_weight (base (hook_run_water_iteration self))) i j =
    Some (Qclip (if Qle_bool (veg_b self) f then candidate_weight self f
                 else 1) 0 1).
Proof.
  intros Hf Hw.
  cbv beta iota zeta delta
    [hook_run_water_iteration with_base set_mod_water_weight set_veg_alpha
     mod_water_weight base veg_frac veg_b veg_A veg_d_stem veg_K].
  unfold Np.clip. cell_eval. reflexivity.
Qed.

(** C3: after [hook_run_water_iteration] the water-weight field is 1 at
    every cell whose fraction is strictly below the density threshold
    [veg_b], and at every other cell it is the candidate weight
    [1 - (A * pi * d_stem^2 * K * (fraction - b) / 4)] clamped into [0,1]. *)
Theorem hook_run_water_iteration_weight (self : VegetationModel)
    (i j : nat) (f w0 : Q) :
  Np.cell (veg_frac self) i j = Some f ->
  Np.cell (mod_water_weight (base self)) i j = Some w0 ->
  (f < veg_b self ->
   Np.cell (mod_water_weight (base (hook_run_water_iteration self))) i j
   = Some 1)
  /\ (~ f < veg_b self ->
      Np.cell (mod_water_weight (base (hook_run_water_iteration self))) i j
      = Some (Qclip (1 - (veg_A self * pi * veg_d_stem self ^ 2 * veg_K self
                          * (f - veg_b self) / 4)) 0 1)).
Proof.
  intros Hf Hw.
  rewrite (water_weight_cell self i j f w0 Hf Hw).
  split; intros Hb.
  - apply Qlt_not_le in Hb. rewrite <- Qle_bool_iff in Hb.
    apply not_true_is_false in Hb. rewrite Hb. reflexivity.
  - apply Qnot_lt_le in Hb. rewrite <- Qle_bool_iff in Hb.
    rewrite Hb. reflexivity.
Qed.

(** C10: when every fraction is in [0,1], every value of the stability
    field written by [hook_run_water_iteration] is in [0.001, 0.1], so it
    is strictly positive. *)
Theorem hook_run_water_iteration_alpha_range (self : VegetationModel) :
  Np.all (fun x => 0 <= x <= 1) (veg_frac self) ->
  Np.all (fun a => 0.001 <= a <= 0.1 /\ 0 < a)
         (veg_alpha (hook_run_water_iteration self)).
Proof.
  intros Hfrac.
  change (veg_alpha (hook_run_water_iteration self))
    with (Np.amap (fun x => -0.099 * x + 0.1) (veg_frac self)).
  eapply all_amap_impl; [|exact Hfrac].
  intros x [H0 H1]. cbv beta. repeat split; lra.
Qed.

(** ** Growth *)

Lemma growth_cell (self : VegetationModel) i j dc d f :
  Np.cell (eta_change self) i j = Some dc ->
  Np.cell (depth (base self)) i j = Some d ->
  Np.cell (veg_frac self) i j = Some f ->
  Np.cell (veg_frac (_vegetation_growth self)) i j =
    Some (growth_at self dc d f).
Proof.
  intros Hc Hd Hf.
  cbv beta iota zeta delta
    [_vegetation_growth with_base set_veg_frac set_H_SL log_call veg_frac
     eta_change base veg_est_init veg_est_interflood_duration veg_r
     _where_valid _veg_growth_flag _where_depth_and_nochange _where_depth
     _where_nochange _where_noveg veg_est_depth veg_est_roc veg_d_root].
  unfold Np.add, Np.logical_and, Np.logical_or.
  cell_eval. reflexivity.
Qed.

(** C5: under the "code" variant, [_vegetation_growth] sets every cell of
    zero fraction that is below the dry-depth threshold, or below both the
    establishment-depth and the rate-of-change thresholds, to the initial
    establishment fraction and advances it by the logistic step in the same
    invocation; every cell of nonzero fraction is advanced by the step
    [fraction + interflood_duration * (1 - fraction) * growth_rate *
    fraction]. *)
Theorem vegetation_growth_code_variant (self : VegetationModel)
    (i j : nat) (dc d f : Q) :
  Np.cell (eta_change self) i j = Some dc ->
  Np.cell (depth (base self)) i j = Some d ->
  Np.cell (veg_frac self) i j = Some f ->
  _veg_growth_flag = code
  /\ (f == 0 ->
      d < dry_depth (base self)
      \/ (d < veg_est_depth self /\ dc < veg_est_roc self * veg_d_root self) ->
      Np.cell (veg_frac (_vegetation_growth self)) i j =
        Some (veg_est_init self
              + veg_est_interflood_duration self * (1 - veg_est_init self)
                * veg_r self * veg_est_init self))
  /\ (~ f == 0 ->
      Np.cell (veg_frac (_vegetation_growth self)) i j =
        Some (f + veg_est_interflood_duration self * (1 - f)
                  * veg_r self * f)).
Proof.
  intros Hc Hd Hf.
  rewrite (growth_cell self i j dc d f Hc Hd Hf).
  unfold growth_at, valid_at, logistic_step.
  split; [reflexivity|]. split.
  - intros Hz Hel. apply Qeq_bool_iff in Hz. rewrite Hz, andb_true_r.
    destruct Hel as [Hdry | [Hdep Hroc]].
    + apply Qlt_bool_iff in Hdry. rewrite Hdry. reflexivity.
    + apply Qlt_bool_iff in Hdep, Hroc. rewrite Hdep, Hroc, orb_true_r.
      reflexivity.
  - intros Hnz. apply Qeq_bool_false in Hnz. rewrite Hnz, andb_false_r.
    reflexivity.
Qed.

(** ** The post-routing hook: timer, call log, sea level *)

(** The scalar attributes after each private method. *)

Lemma mortality_frame (self : VegetationModel) :
  base (_vegetation_mortality self) = base self
  /\ calls (_vegetation_mortality self)
     = calls self ++ [Call_vegetation_mortality]
  /\ time_since_interflood (_vegetation_mortality self)
     = time_since_interflood self
  /\ veg_est_flood_duration (_vegetation_mortality self)
     = veg_est_flood_duration self
  /\ veg_est_interflood_duration (_vegetation_mortality self)
     = veg_est_interflood_duration self.
Proof. repeat split. Qed.

Lemma growth_frame (self : VegetationModel) :
  H_SL (base (_vegetation_growth self))
  = H_SL (base self) + SLR (base self) * veg_est_interflood_duration self
  /\ calls (_vegetation_growth self) = calls self ++ [Call_vegetation_growth]
  /\ time_since_interflood (_vegetation_growth self)
     = time_since_interflood self.
Proof. repeat split. Qed.

(** The branch structure of the hook: [s1] is the state after the
    elevation change is recorded, [s2] after the timer is incremented. *)
Lemma hook_after_route_sediment_unfold (self : VegetationModel) :
  let s1 := set_eta_change (Np.sub (eta (base self)) (eta0 (base self)))
              self in
  let s2 := set_time_since_interflood
              (time_since_interflood self + _dt (base self)) s1 in
  let clipped s := set_veg_frac (Np.clip (veg_frac s) 0 1) s in
  hook_after_route_sediment self =
    if vegetation (base self) then
      if Qle_bool (veg_est_flood_duration self)
                  (time_since_interflood self + _dt (base self))
      then clipped (set_time_since_interflood 0
                      (_vegetation_growth (_vegetation_mortality s2)))
      else clipped (_vegetation_mortality s2)
    else clipped s1.
Proof.
  intros s1 s2 clipped. unfold hook_after_route_sediment.
  fold s1. change (vegetation (base s1)) with (vegetation (base self)).
  destruct (vegetation (base self)); [|reflexivity].
  change (time_since_interflood s1 + _dt (base s1))
    with (time_since_interflood self + _dt (base self)).
  fold s2.
  change (veg_est_flood_duration (_vegetation_mortality s2))
    with (veg_est_flood_duration self).
  change (time_since_interflood (_vegetation_mortality s2))
    with (time_since_interflood self + _dt (base self)).
  destruct (Qle_bool _ _); reflexivity.
Qed.

Lemma hook_calls (self : VegetationModel) :
  calls (hook_after_route_sediment self) =
  calls self ++
    (if vegetation (base self) then
       if Qle_bool (veg_est_flood_duration self)
                   (time_since_interflood self + _dt (base self))
       then [Call_vegetation_mortality; Call_vegetation_growth]
       else [Call_vegetation_mortality]
     else []).
Proof.
  rewrite hook_after_route_sediment_unfold.
  destruct (vegetation (base self)); [destruct (Qle_bool _ _)|].
  - change (calls self ++ [Call_vegetation_mortality; Call_vegetation_growth])
      with (calls self ++ [Call_vegetation_mortality]
                       ++ [Call_vegetation_growth]).
    rewrite app_assoc. reflexivity.
  - reflexivity.
  - rewrite app_nil_r. reflexivity.
Qed.

Lemma calls_during_eq (self : VegetationModel) :
  calls_during self =
    if vegetation (base self) then
      if Qle_bool (veg_est_flood_duration self)
                  (time_since_interflood self + _dt (base self))
      then [Call_vegetation_mortality; Call_vegetation_growth]
      else [Call_vegetation_mortality]
    else [].
Proof.
  unfold calls_during. rewrite hook_calls. apply drop_app_length.
Qed.

Lemma growth_called_iff (self : VegetationModel) :
  In Call_vegetation_growth (calls_during self) <->
  vegetation (base self) = true
  /\ veg_est_flood_duration self
     <= time_since_interflood self + _dt (base self).
Proof.
  rewrite calls_during_eq, <- Qle_bool_iff.
  destruct (vegetation (base self)); [destruct (Qle_bool _ _)|]; simpl;
    intuition congruence.
Qed.

Lemma hook_timer (self : VegetationModel) :
  time_since_interflood (hook_after_route_sediment self) =
    if vegetation (base self) then
      if Qle_bool (veg_est_flood_duration self)
                  (time_since_interflood self + _dt (base self))
      then 0
      else time_since_interflood self + _dt (base self)
    else time_since_interflood self.
Proof.
  rewrite hook_after_route_sediment_unfold.
  destruct (vegetation (base self)); [destruct (Qle_bool _ _)|]; reflexivity.
Qed.

Lemma hook_H_SL (self : VegetationModel) :
  H_SL (base (hook_after_route_sediment self)) =
    if vegetation (base self)
       && Qle_bool (veg_est_flood_duration self)
                   (time_since_interflood self + _dt (base self))
    then H_SL (base self) + SLR (base self) * veg_est_interflood_duration self
    else H_SL (base self).
Proof.
  rewrite hook_after_route_sediment_unfold.
  destruct (vegetation (base self)); [destruct (Qle_bool _ _)|]; reflexivity.
Qed.

(** C4: with vegetation enabled, a call of [hook_after_route_sediment]
    enters the growth rule if and only if the timer, once incremented by
    the time step, has reached the flood-duration threshold; after growth
    fires the timer is exactly 0, and on a call where it does not fire the
    timer keeps its accumulated value. *)
Theorem growth_fires_iff_timer_reached (self : VegetationModel) :
  vegetation (base self) = true ->
  (In Call_vegetation_growth (calls_during self) <->
   veg_est_flood_duration self
   <= time_since_interflood self + _dt (base self))
  /\ (In Call_vegetation_growth (calls_during self) ->
      time_since_interflood (hook_after_route_sediment self) = 0)
  /\ (~ In Call_vegetation_growth (calls_during self) ->
      time_since_interflood (hook_after_route_sediment self)
      = time_since_interflood self + _dt (base self)).
Proof.
  intros Hveg.
  rewrite growth_called_iff, hook_timer, Hveg, <- Qle_bool_iff.
  destruct (Qle_bool _ _); intuition congruence.
Qed.

(** C6: the sea level advances by exactly [SLR *
    veg_est_interflood_duration], with no other factor, on a call of
    [hook_after_route_sediment] where growth fires, that is where
    vegetation is enabled and the timer, once incremented by the time step,
    has reached the flood duration; these are the calls that enter the
    growth rule.  On every other call, with vegetation disabled or the
    incremented timer below the flood duration, the growth rule is not
    entered and the sea level is unchanged. *)
Theorem sea_level_advances_when_growth_fires (self : VegetationModel) :
  (vegetation (base self) = true ->
   veg_est_flood_duration self
   <= time_since_interflood self + _dt (base self) ->
   In Call_vegetation_growth (calls_during self)
   /\ H_SL (base (hook_after_route_sediment self))
      = H_SL (base self) + SLR (base self) * veg_est_interflood_duration self)
  /\ (vegetation (base self) = false
      \/ time_since_interflood self + _dt (base self)
         < veg_est_flood_duration self ->
      ~ In Call_vegetation_growth (calls_during self)
      /\ H_SL (base (hook_after_route_sediment self)) = H_SL (base self)).
Proof.
  rewrite growth_called_iff, hook_H_SL, <- Qle_bool_false, <- Qle_bool_iff.
  destruct (vegetation (base self)); [destruct (Qle_bool _ _)|]; simpl;
    intuition congruence.
Qed.

(** ** Establishment after erosion *)

Lemma mortality_at_root_kill (d_root dc d f : Q) :
  d_root <= Qabs dc -> mortality_at d_root dc d f = 0.
Proof.
  intros H. unfold mortality_at.
  assert (E1 : Qle_bool d_root (Qabs dc) = true) by (apply Qle_bool_iff, H).
  assert (E3 : Qlt_bool (Qabs dc) d_root = false)
    by (apply Qlt_bool_false, H).
  rewrite E1, E3, andb_false_r. cbv zeta.
  destruct (Qlt_bool 1 d); reflexivity.
Qed.

Lemma veg_frac_set_veg_frac (v : Np.ndarray Q) (s : VegetationModel) :
  veg_frac (set_veg_frac v s) = v.
Proof. reflexivity. Qed.

Lemma veg_frac_set_time_since_interflood (t : Q) (s : VegetationModel) :
  veg_frac (set_time_since_interflood t s) = veg_frac s.
Proof. reflexivity. Qed.

Lemma hook_frac_when_growth_fires (self : VegetationModel) :
  vegetation (base self) = true ->
  veg_est_flood_duration self
  <= time_since_interflood self + _dt (base self) ->
  veg_frac (hook_after_route_sediment self) =
    Np.clip
      (veg_frac
         (_vegetation_growth
            (_vegetation_mortality
               (set_time_since_interflood
                  (time_since_interflood self + _dt (base self))
                  (set_eta_change
                     (Np.sub (eta (base self)) (eta0 (base self)))
                     self)))))
      0 1.
Proof.
  intros Hveg Hdue. apply Qle_bool_iff in Hdue.
  pose proof (hook_after_route_sediment_unfold self) as Hu.
  cbv zeta in Hu. rewrite Hveg, Hdue in Hu. rewrite Hu.
  rewrite veg_frac_set_veg_frac, veg_frac_set_time_since_interflood.
  reflexivity.
Qed.

(** C9, as the code has it: the establishment criterion on the elevation
    change is the signed comparison [eta_change < veg_est_roc *
    veg_d_root], and the code checks the sign of neither factor.  For a
    positive root depth and a non-negative rate-of-change fraction, every
    negative
    elevation change satisfies it whatever its magnitude; so a cell eroded
    by more than the root depth, which mortality sets to 0, is established
    again in the same call of [hook_after_route_sediment] when growth fires
    and its depth is below the establishment depth: it leaves the hook with
    the clamped logistic step of the initial fraction, whatever its prior
    fraction. *)
Theorem establishment_change_criterion_is_signed (self : VegetationModel)
    (i j : nat) (e e0 d f : Q) :
  0 < veg_d_root self ->
  0 <= veg_est_roc self ->
  Np.cell (eta (base self)) i j = Some e ->
  Np.cell (eta0 (base self)) i j = Some e0 ->
  Np.cell (depth (base self)) i j = Some d ->
  Np.cell (veg_frac self) i j = Some f ->
  let s1 :=
    set_eta_change (Np.sub (eta (base self)) (eta0 (base self))) self in
  (e - e0 < 0 -> Np.cell (_where_nochange s1) i j = Some true)
  /\ (e - e0 < - veg_d_root self ->
      Np.cell (veg_frac (_vegetation_mortality s1)) i j = Some 0
      /\ (vegetation (base self) = true ->
          veg_est_flood_duration self
          <= time_since_interflood self + _dt (base self) ->
          d < veg_est_depth self ->
          Np.cell (veg_frac (hook_after_route_sediment self)) i j =
            Some (Qclip (logistic_step self (veg_est_init self)) 0 1))).
Proof.
  intros Hroot Hroc He He0 Hd Hf s1.
  assert (Hdc : Np.cell (eta_change s1) i j = Some (e - e0)).
  { unfold s1, set_eta_change, Np.sub. cbn [eta_change]. cell_eval.
    reflexivity. }
  assert (Hthr : 0 <= veg_est_roc self * veg_d_root self).
  { apply Qmult_le_0_compat; [exact Hroc | apply Qlt_le_weak, Hroot]. }
  split.
  - intros Hneg. unfold _where_nochange. cell_eval.
    change (veg_est_roc s1) with (veg_est_roc self).
    change (veg_d_root s1) with (veg_d_root self).
    f_equal. apply Qlt_bool_iff. lra.
  - intros Hero.
    assert (Habs : veg_d_root self <= Qabs (e - e0)).
    { pose proof (Qabs_neg (e - e0)) as Hn. rewrite Hn; lra. }
    split.
    + rewrite (mortality_cell s1 i j (e - e0) d f Hdc Hd Hf).
      f_equal. apply mortality_at_root_kill. exact Habs.
    + intros Hveg Hdue Hdepth.
      rewrite (hook_frac_when_growth_fires self Hveg Hdue).
      set (s2 := set_time_since_interflood _ _).
      unfold Np.clip.
      apply (cell_amap_Some (fun x => Qclip x 0 1) _ i j
               (logistic_step self (veg_est_init self))).
      rewrite (growth_cell (_vegetation_mortality s2) i j (e - e0) d 0).
      * f_equal. unfold growth_at, valid_at.
        change (veg_est_depth (_vegetation_mortality s2))
          with (veg_est_depth self).
        change (veg_est_roc (_vegetation_mortality s2))
          with (veg_est_roc self).
        change (veg_d_root (_vegetation_mortality s2))
          with (veg_d_root self).
        change (veg_est_init (_vegetation_mortality s2))
          with (veg_est_init self).
        assert (E1 : Qlt_bool d (veg_est_depth self) = true)
          by (apply Qlt_bool_iff, Hdepth).
        assert (E2 : Qlt_bool (e - e0) (veg_est_roc self * veg_d_root self)
                     = true) by (apply Qlt_bool_iff; lra).
        rewrite E1, E2. cbn [andb]. rewrite orb_true_r. reflexivity.
      * exact Hdc.
      * exact Hd.
      * rewrite (mortality_cell s2 i j (e - e0) d f Hdc Hd Hf).
        f_equal. apply mortality_at_root_kill. exact Habs.
Qed.

(** ** Set-up *)

Lemma py_div_zero (x y : Q) : y == 0 -> py_div x y = Raise ZeroDivisionError.
Proof.
  intros H. unfold py_div. apply Qeq_bool_iff in H. rewrite H. reflexivity.
Qed.

Lemma py_div_nonzero (x y : Q) : ~ y == 0 -> py_div x y = Ok (x / y).
Proof.
  intros H. unfold py_div. apply Qeq_bool_false in H. rewrite H. reflexivity.
Qed.

Lemma veg_A_divisor_nonzero (d K : Q) :
  ~ d == 0 -> ~ K == 0 ->
  ~ pi * d ^ 2 * K * (4 / d / K - 0.7 / d / K) == 0.
Proof.
  intros Hd HK Hz.
  assert (E : pi * d ^ 2 * K * (4 / d / K - 0.7 / d / K) == pi * 3.3 * d).
  { field. split; assumption. }
  rewrite E in Hz. unfold pi in Hz.
  destruct (Q_dec d 0) as [[Hlt | Hgt] | Heq]; [lra | lra | contradiction].
Qed.

Lemma hook_after_create_domain_ok (self : DeltaModel) :
  ~ p_veg_d_stem self == 0 -> ~ p_veg_K self == 0 ->
  hook_after_create_domain self = Ok (set_up self).
Proof.
  intros Hd HK. unfold hook_after_create_domain.
  rewrite (py_div_nonzero (p_veg_r self)) by (vm_compute; discriminate).
  cbn [mbind result_bind].
  rewrite (py_div_nonzero 0.7 _ Hd). cbn [mbind result_bind].
  rewrite (py_div_nonzero _ _ HK). cbn [mbind result_bind].
  rewrite (py_div_nonzero 4 _ Hd). cbn [mbind result_bind].
  rewrite (py_div_nonzero _ _ HK). cbn [mbind result_bind].
  rewrite py_div_nonzero by (apply veg_A_divisor_nonzero; assumption).
  reflexivity.
Qed.

Lemma hook_after_create_domain_raises (self : DeltaModel) :
  p_veg_d_stem self == 0 \/ p_veg_K self == 0 ->
  hook_after_create_domain self = Raise ZeroDivisionError.
Proof.
  intros H. unfold hook_after_create_domain.
  rewrite (py_div_nonzero (p_veg_r self)) by (vm_compute; discriminate).
  cbn [mbind result_bind].
  destruct (Qeq_dec (p_veg_d_stem self) 0) as [Hd | Hd].
  - rewrite (py_div_zero 0.7 _ Hd). reflexivity.
  - rewrite (py_div_nonzero 0.7 _ Hd). cbn [mbind result_bind].
    destruct H as [H | H]; [contradiction|].
    rewrite (py_div_zero _ _ H). reflexivity.
Qed.


(** ** Shapes and numerical equality of arrays *)

Module ShapeFacts.

Import Np.

Lemma has_shape_cell {A} L W (a : ndarray A) i j :
  has_shape L W a -> (i < L)%nat -> (j < W)%nat ->
  exists x, cell a i j = Some x.
Proof.
  intros [Hl Hr] Hi Hj. unfold cell.
  destruct (lookup_lt_is_Some_2 a i) as [row Hrow]; [lia|].
  rewrite Hrow. simpl.
  apply lookup_lt_is_Some_2.
  rewrite (Forall_lookup_1 _ _ _ _ Hr Hrow). exact Hj.
Qed.

Lemma has_shape_cell_lt {A} L W (a : ndarray A) i j x :
  has_shape L W a -> cell a i j = Some x -> (i < L)%nat /\ (j < W)%nat.
Proof.
  intros [Hl Hr] Hc. unfold cell in Hc.
  destruct (a !! i) as [row|] eqn:Hrow; simpl in Hc; [|discriminate].
  split.
  - rewrite <- Hl. eapply lookup_lt_Some, Hrow.
  - rewrite <- (Forall_lookup_1 _ _ _ _ Hr Hrow).
    eapply lookup_lt_Some, Hc.
Qed.

Lemma has_shape_amap {A B} L W (f : A -> B) (a : ndarray A) :
  has_shape L W a -> has_shape L W (amap f a).
Proof.
  intros [Hl Hr]. unfold amap. split.
  - rewrite length_fmap. exact Hl.
  - apply Forall_fmap. eapply Forall_impl; [exact Hr|].
    intros row Hrow. simpl. rewrite length_fmap. exact Hrow.
Qed.

Lemma has_shape_amap2 {A B C} L W (f : A -> B -> C) a b :
  has_shape L W a -> has_shape L W b -> has_shape L W (amap2 f a b).
Proof.
  intros [Hla Hra] [Hlb Hrb]. unfold amap2. split.
  - rewrite length_zip_with. lia.
  - apply Forall_lookup. intros i row Hrow.
    apply lookup_zip_with_Some in Hrow as (ra & rb & -> & Ha & Hb).
    rewrite length_zip_with.
    rewrite (Forall_lookup_1 _ _ _ _ Hra Ha).
    rewrite (Forall_lookup_1 _ _ _ _ Hrb Hb). lia.
Qed.

Lemma has_shape_fill_row0 {A} L W (a : ndarray A) s :
  has_shape L W a -> has_shape L W (fill_row0 a s).
Proof.
  intros [Hl Hr]. destruct a as [|row rows]; [split; assumption|].
  simpl. split; [exact Hl|].
  inversion Hr; subst. constructor; [|assumption].
  apply length_fmap.
Qed.

Lemma cell_fill_row0 {A} (a : ndarray A) s i j x :
  cell a i j = Some x ->
  cell (fill_row0 a s) i j = Some (if Nat.eqb i 0 then s else x).
Proof.
  unfold cell. destruct a as [|row rows]; [destruct i; discriminate|].
  destruct i as [|i]; simpl; [|auto].
  intros H. rewrite list_lookup_fmap, H. reflexivity.
Qed.

Lemma has_shape_convolve L W (input weights : ndarray Q) :
  has_shape L W input -> has_shape L W (Ndimage.convolve input weights).
Proof.
  intros [Hl Hr]. unfold Ndimage.convolve. split.
  - rewrite length_imap. exact Hl.
  - apply Forall_lookup. intros i row Hrow.
    rewrite list_lookup_imap in Hrow.
    destruct (input !! i) as [r|] eqn:Hi; simpl in Hrow; [|discriminate].
    inversion Hrow; subst. rewrite length_imap.
    exact (Forall_lookup_1 _ _ _ _ Hr Hi).
Qed.

Lemma cell_convolve (input weights : ndarray Q) i j x :
  cell input i j = Some x ->
  cell (Ndimage.convolve input weights) i j
  = Some (Ndimage.convolve_at input weights i j).
Proof.
  unfold cell, Ndimage.convolve. intros H.
  rewrite list_lookup_imap.
  destruct (input !! i) as [r|]; simpl in *; [|discriminate].
  rewrite list_lookup_imap, H. reflexivity.
Qed.

Lemma eqv_cell_l (a b : ndarray Q) i j x :
  eqv a b -> cell a i j = Some x -> exists y, cell b i j = Some y /\ x == y.
Proof.
  unfold eqv, cell. intros Hab Hc.
  destruct (a !! i) as [ra|] eqn:Ha; simpl in Hc; [|discriminate].
  destruct (Forall2_lookup_l _ _ _ _ _ Hab Ha) as (rb & Hb & Hrows).
  rewrite Hb. simpl.
  exact (Forall2_lookup_l _ _ _ _ _ Hrows Hc).
Qed.

Lemma eqv_cell_None (a b : ndarray Q) i j :
  eqv a b -> cell a i j = None -> cell b i j = None.
Proof.
  unfold eqv, cell. intros Hab Hc.
  destruct (b !! i) as [rb|] eqn:Hb; simpl; [|reflexivity].
  destruct (Forall2_lookup_r _ _ _ _ _ Hab Hb) as (ra & Ha & Hrows).
  rewrite Ha in Hc. simpl in Hc.
  destruct (rb !! j) as [y|] eqn:Hy; [|reflexivity].
  destruct (Forall2_lookup_r _ _ _ _ _ Hrows Hy) as (x & Hx & _).
  congruence.
Qed.

Lemma eqv_has_shape L W (a b : ndarray Q) :
  eqv a b -> has_shape L W a -> has_shape L W b.
Proof.
  unfold eqv. intros Hab [Hl Hr]. split.
  - rewrite <- Hl. symmetry. eapply Forall2_length, Hab.
  - apply Forall_lookup. intros i rb Hb.
    destruct (Forall2_lookup_r _ _ _ _ _ Hab Hb) as (ra & Ha & Hrows).
    rewrite <- (Forall_lookup_1 _ _ _ _ Hr Ha).
    symmetry. eapply Forall2_length, Hrows.
Qed.

Lemma eqv_of_cells L W (a b : ndarray Q) :
  has_shape L W a -> has_shape L W b ->
  (forall i j x y, cell a i j = Some x -> cell b i j = Some y -> x == y) ->
  eqv a b.
Proof.
  intros [Hla Hra] [Hlb Hrb] Hcells. unfold eqv.
  apply Forall2_same_length_lookup. split; [lia|].
  intros i ra rb Ha Hb.
  apply Forall2_same_length_lookup. split.
  - rewrite (Forall_lookup_1 _ _ _ _ Hra Ha).
    rewrite (Forall_lookup_1 _ _ _ _ Hrb Hb). reflexivity.
  - intros j x y Hx Hy. apply (Hcells i j); unfold cell.
    + rewrite Ha. exact Hx.
    + rewrite Hb. exact Hy.
Qed.

Lemma eqv_refl (a : ndarray Q) : eqv a a.
Proof.
  unfold eqv. apply Forall2_same_length_lookup. split; [reflexivity|].
  intros i r1 r2 H1 H2. assert (r1 = r2) by congruence. subst.
  apply Forall2_same_length_lookup. split; [reflexivity|].
  intros j x y Hx Hy. assert (x = y) by congruence. subst. reflexivity.
Qed.

Lemma padded_eqv (a b : ndarray Q) (i j : Z) :
  eqv a b -> Ndimage.padded a i j == Ndimage.padded b i j.
Proof.
  intros Hab. unfold Ndimage.padded.
  destruct ((i <? 0) || (j <? 0))%Z; [reflexivity|].
  destruct (cell a (Z.to_nat i) (Z.to_nat j)) as [x|] eqn:Hx.
  - destruct (eqv_cell_l a b _ _ x Hab Hx) as (y & Hy & Hxy).
    rewrite Hy. exact Hxy.
  - rewrite (eqv_cell_None a b _ _ Hab Hx). reflexivity.
Qed.

Lemma Qsum_imap_ext {A} (f g : nat -> A -> Q) (l : list A) :
  (forall p w, f p w == g p w) ->
  Ndimage.Qsum (imap f l) == Ndimage.Qsum (imap g l).
Proof.
  revert f g. induction l as [|w l IH]; intros f g Hfg; [reflexivity|].
  simpl. rewrite (Hfg 0%nat w).
  rewrite (IH (f ∘ S) (g ∘ S)); [reflexivity|].
  intros p w'. apply Hfg.
Qed.

Lemma convolve_at_eqv (a b weights : ndarray Q) (i j : nat) :
  eqv a b ->
  Ndimage.convolve_at a weights i j == Ndimage.convolve_at b weights i j.
Proof.
  intros Hab. unfold Ndimage.convolve_at. cbv zeta.
  apply Qsum_imap_ext. intros p wrow.
  apply Qsum_imap_ext. intros q w.
  rewrite (padded_eqv a b _ _ Hab). reflexivity.
Qed.

End ShapeFacts.

Import ShapeFacts.

Ltac grid_cell_step :=
  first [ eassumption
        | eapply cell_fill_row0
        | eapply cell_convolve
        | eapply cell_assign_where
        | eapply cell_fill_where
        | eapply cell_amap2
        | eapply cell_amap_Some ].

Ltac grid_cell_eval :=
  match goal with
  | |- Np.cell ?E ?i ?j = _ =>
      let H := fresh "Hcell" in
      eassert (H : Np.cell E i j = Some _) by (repeat grid_cell_step);
      rewrite H; clear H
  end.

(** ** Diffusion *)

(** What one pass leaves unchanged. *)

Lemma topo_diffusion_pass_frame (self : VegetationModel) :
  qs (base (topo_diffusion_pass self)) = qs (base self)
  /\ cell_type (base (topo_diffusion_pass self)) = cell_type (base self)
  /\ kernel1 (base (topo_diffusion_pass self)) = kernel1 (base self)
  /\ kernel2 (base (topo_diffusion_pass self)) = kernel2 (base self)
  /\ diffusion_multiplier (base (topo_diffusion_pass self))
     = diffusion_multiplier (base self)
  /\ veg_alpha (topo_diffusion_pass self) = veg_alpha self.
Proof. repeat split. Qed.

Lemma host_topo_diffusion_pass_frame (m : DeltaModel) :
  qs (host_topo_diffusion_pass m) = qs m
  /\ cell_type (host_topo_diffusion_pass m) = cell_type m
  /\ kernel1 (host_topo_diffusion_pass m) = kernel1 m
  /\ kernel2 (host_topo_diffusion_pass m) = kernel2 m
  /\ diffusion_multiplier (host_topo_diffusion_pass m)
     = diffusion_multiplier m.
Proof. repeat split. Qed.

(** Any number of passes returns the state with a new elevation and a new
    flux [cf], and nothing else changed. *)

Lemma with_base_id (self : VegetationModel) :
  self = with_base (fun m => set_eta (eta m) (set_cf (cf m) m)) self.
Proof. destruct self as [[] ]. reflexivity. Qed.

Lemma topo_diffusion_iter_only_eta_cf (n : nat) (self : VegetationModel) :
  exists eta' cf',
    Nat.iter n topo_diffusion_pass self
    = with_base (fun m => set_eta eta' (set_cf cf' m)) self.
Proof.
  induction n as [|n (e & c & IH)].
  - exists (eta (base self)), (cf (base self)).
    cbn [Nat.iter nat_rect]. apply with_base_id.
  - rewrite Nat.iter_succ, IH.
    unfold topo_diffusion_pass at 1.
    cbv beta iota zeta delta [with_base base].
    eexists. eexists. reflexivity.
Qed.

(** The elevation of one cell after one pass: the bracket
    [qs * a - eta * b + c], scaled, zeroed on the first row and at the
    cells of type [-2], and added to [eta]. *)

Lemma topo_diffusion_pass_cell (self : VegetationModel) i j e q (t : Z) al :
  Np.cell (eta (base self)) i j = Some e ->
  Np.cell (qs (base self)) i j = Some q ->
  Np.cell (cell_type (base self)) i j = Some t ->
  Np.cell (veg_alpha self) i j = Some al ->
  let m := base self in
  Np.cell (eta (base (topo_diffusion_pass self))) i j =
    Some (e + (if Nat.eqb i 0 then 0
               else if (t =? -2)%Z then 0
               else Ndimage.convolve_at (veg_alpha self) (kernel2 m) i j
                    * diffusion_multiplier m
                    * (q * Ndimage.convolve_at (eta m) (kernel1 m) i j
                       - e * Ndimage.convolve_at (qs m) (kernel2 m) i j
                       + Ndimage.convolve_at (Np.mul (qs m) (eta m))
                           (kernel2 m) i j))).
Proof.
  intros He Hq Ht Hal m.
  assert (Hqe : Np.cell (Np.mul (qs m) (eta m)) i j = Some (q * e)).
  { unfold Np.mul. apply cell_amap2; assumption. }
  cbv beta iota zeta delta
    [topo_diffusion_pass with_base set_eta set_cf base eta].
  fold m. unfold Np.add, Np.sub, Np.mul in *.
  grid_cell_eval. reflexivity.
Qed.

Lemma host_topo_diffusion_pass_cell (m : DeltaModel) i j e q (t : Z) :
  Np.cell (eta m) i j = Some e ->
  Np.cell (qs m) i j = Some q ->
  Np.cell (cell_type m) i j = Some t ->
  Np.cell (eta (host_topo_diffusion_pass m)) i j =
    Some (e + (if Nat.eqb i 0 then 0
               else if (t =? -2)%Z then 0
               else diffusion_multiplier m
                    * (q * Ndimage.convolve_at (eta m) (kernel1 m) i j
                       - e * Ndimage.convolve_at (qs m) (kernel2 m) i j
                       + Ndimage.convolve_at (Np.mul (qs m) (eta m))
                           (kernel2 m) i j))).
Proof.
  intros He Hq Ht.
  assert (Hqe : Np.cell (Np.mul (qs m) (eta m)) i j = Some (q * e)).
  { unfold Np.mul. apply cell_amap2; assumption. }
  cbv beta iota zeta delta [host_topo_diffusion_pass set_eta set_cf eta].
  unfold Np.add, Np.sub, Np.mul in *.
  grid_cell_eval. reflexivity.
Qed.

Lemma eqv_mul_l L W (q a b : Np.ndarray Q) :
  Np.has_shape L W q -> Np.has_shape L W a ->
  Np.eqv a b -> Np.eqv (Np.mul q a) (Np.mul q b).
Proof.
  intros Hq Ha Hab.
  pose proof (eqv_has_shape L W a b Hab Ha) as Hb.
  apply (eqv_of_cells L W); try (apply has_shape_amap2; assumption).
  intros i j x y Hx Hy.
  apply cell_amap2_inv in Hx as (q1 & a1 & Hq1 & Ha1 & ->).
  apply cell_amap2_inv in Hy as (q2 & b1 & Hq2 & Hb1 & ->).
  assert (q1 = q2) by congruence. subst q2.
  destruct (eqv_cell_l a b i j a1 Hab Ha1) as (b2 & Hb2 & Hab1).
  assert (b1 = b2) by congruence. subst b2.
  rewrite Hab1. reflexivity.
Qed.

Lemma topo_diffusion_pass_shape L W (self : VegetationModel) :
  grid_shaped L W self -> grid_shaped L W (topo_diffusion_pass self).
Proof.
  intros (He & Hq & Ht & Ha).
  split; [|split; [exact Hq | split; [exact Ht | exact Ha]]].
  cbv beta iota zeta delta
    [topo_diffusion_pass with_base set_eta set_cf base eta].
  unfold Np.add, Np.sub, Np.mul, Np.fill_where.
  repeat first [ assumption
               | apply has_shape_amap2
               | apply has_shape_fill_row0
               | apply has_shape_amap
               | apply has_shape_convolve ].
Qed.

Lemma host_topo_diffusion_pass_shape L W (m : DeltaModel) :
  Np.has_shape L W (eta m) -> Np.has_shape L W (qs m) ->
  Np.has_shape L W (cell_type m) ->
  Np.has_shape L W (eta (host_topo_diffusion_pass m)).
Proof.
  intros He Hq Ht.
  cbv beta iota zeta delta [host_topo_diffusion_pass set_eta set_cf eta].
  unfold Np.add, Np.sub, Np.mul, Np.fill_where.
  repeat first [ assumption
               | apply has_shape_amap2
               | apply has_shape_fill_row0
               | apply has_shape_amap
               | apply has_shape_convolve ].
Qed.

Lemma host_topo_diffusion_pass_scaled_frame (d : Np.ndarray Q)
    (m : DeltaModel) :
  qs (host_topo_diffusion_pass_scaled d m) = qs m
  /\ cell_type (host_topo_diffusion_pass_scaled d m) = cell_type m
  /\ kernel1 (host_topo_diffusion_pass_scaled d m) = kernel1 m
  /\ kernel2 (host_topo_diffusion_pass_scaled d m) = kernel2 m
  /\ diffusion_multiplier (host_topo_diffusion_pass_scaled d m)
     = diffusion_multiplier m.
Proof. repeat split. Qed.

Lemma host_topo_diffusion_pass_scaled_cell (d : Np.ndarray Q)
    (m : DeltaModel) i j e q (t : Z) dij :
  Np.cell (eta m) i j = Some e ->
  Np.cell (qs m) i j = Some q ->
  Np.cell (cell_type m) i j = Some t ->
  Np.cell d i j = Some dij ->
  Np.cell (eta (host_topo_diffusion_pass_scaled d m)) i j =
    Some (e + (if Nat.eqb i 0 then 0
               else if (t =? -2)%Z then 0
               else dij
                    * (diffusion_multiplier m
                       * (q * Ndimage.convolve_at (eta m) (kernel1 m) i j
                          - e * Ndimage.convolve_at (qs m) (kernel2 m) i j
                          + Ndimage.convolve_at (Np.mul (qs m) (eta m))
                              (kernel2 m) i j)))).
Proof.
  intros He Hq Ht Hd.
  assert (Hqe : Np.cell (Np.mul (qs m) (eta m)) i j = Some (q * e)).
  { unfold Np.mul. apply cell_amap2; assumption. }
  cbv beta iota zeta delta
    [host_topo_diffusion_pass_scaled set_eta set_cf eta].
  unfold Np.add, Np.sub, Np.mul in *.
  grid_cell_eval. reflexivity.
Qed.

Lemma host_topo_diffusion_pass_scaled_shape L W (d : Np.ndarray Q)
    (m : DeltaModel) :
  Np.has_shape L W d ->
  Np.has_shape L W (eta m) -> Np.has_shape L W (qs m) ->
  Np.has_shape L W (cell_type m) ->
  Np.has_shape L W (eta (host_topo_diffusion_pass_scaled d m)).
Proof.
  intros Hd He Hq Ht.
  cbv beta iota zeta delta
    [host_topo_diffusion_pass_scaled set_eta set_cf eta].
  unfold Np.add, Np.sub, Np.mul, Np.fill_where.
  repeat first [ assumption
               | apply has_shape_amap2
               | apply has_shape_fill_row0
               | apply has_shape_amap
               | apply has_shape_convolve ].
Qed.

(** One pass of the override and one pass of the host's step with its flux
    scaled by the override's factor, from states of numerically equal
    elevation. *)
Lemma topo_diffusion_pass_agrees_scaled L W (self : VegetationModel)
    (m : DeltaModel) :
  grid_shaped L W self ->
  diffusion_inputs_agree self m ->
  Np.eqv (eta (base self)) (eta m) ->
  Np.eqv (eta (base (topo_diffusion_pass self)))
         (eta (host_topo_diffusion_pass_scaled (flux_factor self) m)).
Proof.
  intros Hshape (Eq & Et & Ek1 & Ek2 & Em) Heta.
  pose proof Hshape as (He & Hq & Ht & Ha).
  pose proof (eqv_has_shape L W _ _ Heta He) as Hem.
  apply (eqv_of_cells L W).
  - apply (topo_diffusion_pass_shape L W self Hshape).
  - apply host_topo_diffusion_pass_scaled_shape; try congruence.
    unfold flux_factor. apply has_shape_convolve, Ha.
  - intros i j x y Hx Hy.
    destruct (has_shape_cell_lt L W _ i j x
                (proj1 (topo_diffusion_pass_shape L W self Hshape)) Hx)
      as [Hi Hj].
    destruct (has_shape_cell L W _ i j He Hi Hj) as [e Hce].
    destruct (has_shape_cell L W _ i j Hq Hi Hj) as [q Hcq].
    destruct (has_shape_cell L W _ i j Ht Hi Hj) as [t Hct].
    destruct (has_shape_cell L W _ i j Ha Hi Hj) as [al Hca].
    destruct (eqv_cell_l _ _ i j e Heta Hce) as (e' & Hce' & Hee').
    rewrite (topo_diffusion_pass_cell self i j e q t al Hce Hcq Hct Hca)
      in Hx.
    rewrite (host_topo_diffusion_pass_scaled_cell (flux_factor self) m
               i j e' q t
               (Ndimage.convolve_at (veg_alpha self) (kernel2 (base self))
                  i j)) in Hy;
      [|exact Hce' | congruence | congruence
       | unfold flux_factor; eapply cell_convolve, Hca].
    inversion Hx; subst x. inversion Hy; subst y. clear Hx Hy.
    rewrite <- Eq, <- Ek1, <- Ek2, <- Em.
    destruct (Nat.eqb i 0); [rewrite Hee'; reflexivity|].
    destruct (t =? -2)%Z; [rewrite Hee'; reflexivity|].
    rewrite <- (convolve_at_eqv _ _ (kernel1 (base self)) i j Heta).
    rewrite <- (convolve_at_eqv _ _ (kernel2 (base self)) i j
                  (eqv_mul_l L W (qs (base self)) _ _ Hq He Heta)).
    rewrite <- Hee'. ring.
Qed.

Lemma topo_diffusion_iter_agrees_scaled L W (n : nat)
    (self : VegetationModel) (m : DeltaModel) :
  grid_shaped L W self ->
  diffusion_inputs_agree self m ->
  Np.eqv (eta (base self)) (eta m) ->
  grid_shaped L W (Nat.iter n topo_diffusion_pass self)
  /\ diffusion_inputs_agree (Nat.iter n topo_diffusion_pass self)
       (Nat.iter n (host_topo_diffusion_pass_scaled (flux_factor self)) m)
  /\ flux_factor (Nat.iter n topo_diffusion_pass self) = flux_factor self
  /\ Np.eqv (eta (base (Nat.iter n topo_diffusion_pass self)))
            (eta (Nat.iter n
                    (host_topo_diffusion_pass_scaled (flux_factor self)) m)).
Proof.
  intros Hshape Hagree Heta.
  induction n as [|n (IHs & IHa & IHd & IHe)];
    [split; [|split; [|split]]; try assumption; reflexivity|].
  rewrite !Nat.iter_succ.
  set (s := Nat.iter n topo_diffusion_pass self) in *.
  set (h := Nat.iter n (host_topo_diffusion_pass_scaled (flux_factor self)) m)
    in *.
  split; [apply topo_diffusion_pass_shape, IHs|].
  split.
  { destruct IHa as (Eq & Et & Ek1 & Ek2 & Em).
    destruct (topo_diffusion_pass_frame s) as (Fq & Ft & Fk1 & Fk2 & Fm & _).
    destruct (host_topo_diffusion_pass_scaled_frame (flux_factor self) h)
      as (Gq & Gt & Gk1 & Gk2 & Gm).
    unfold diffusion_inputs_agree.
    rewrite Fq, Ft, Fk1, Fk2, Fm, Gq, Gt, Gk1, Gk2, Gm.
    repeat split; assumption. }
  split.
  { unfold flux_factor in *.
    destruct (topo_diffusion_pass_frame s) as (_ & _ & _ & Fk2 & _ & Fa).
    rewrite Fk2, Fa. exact IHd. }
  rewrite <- IHd.
  apply (topo_diffusion_pass_agrees_scaled L W); assumption.
Qed.

(** C8, as the code has it: the override multiplies the host's flux by the
    stability field convolved with [kernel2], the factor [d], not by the
    stability field itself.  For every grid state, whatever its stability
    field and kernels, the override produces, up to numerical equality of
    the cells, the elevation of the host's default diffusion step run with
    its flux multiplied cell by cell by [d], with the same kernels,
    boundary zeroing and number of sub-iterations; and one sub-iteration of
    the override changes the elevation of every cell by [d] at that cell
    times the change one sub-iteration of the host's default step makes
    there. *)
Theorem topo_diffusion_scales_host_flux (L W : nat)
    (self : VegetationModel) :
  grid_shaped L W self ->
  Np.eqv (eta (base (topo_diffusion self)))
         (eta (host_topo_diffusion_scaled (flux_factor self) (base self)))
  /\ forall i j e,
       Np.cell (eta (base self)) i j = Some e ->
       exists e_override e_host d,
         Np.cell (eta (base (topo_diffusion_pass self))) i j
         = Some e_override
         /\ Np.cell (eta (host_topo_diffusion_pass (base self))) i j
            = Some e_host
         /\ Np.cell (flux_factor self) i j = Some d
         /\ e_override - e == d * (e_host - e).
Proof.
  intros Hshape. split.
  - unfold topo_diffusion, host_topo_diffusion_scaled.
    apply (topo_diffusion_iter_agrees_scaled L W); try assumption.
    + repeat split.
    + apply eqv_refl.
  - intros i j e Hce.
    destruct Hshape as (He & Hq & Ht & Ha).
    destruct (has_shape_cell_lt L W _ i j e He Hce) as [Hi Hj].
    destruct (has_shape_cell L W _ i j Hq Hi Hj) as [q Hcq].
    destruct (has_shape_cell L W _ i j Ht Hi Hj) as [t Hct].
    destruct (has_shape_cell L W _ i j Ha Hi Hj) as [al Hca].
    eexists. eexists. eexists.
    split; [exact (topo_diffusion_pass_cell self i j e q t al
                     Hce Hcq Hct Hca)|].
    split; [exact (host_topo_diffusion_pass_cell (base self) i j e q t
                     Hce Hcq Hct)|].
    split; [unfold flux_factor; eapply cell_convolve, Hca|].
    destruct (Nat.eqb i 0); [ring|].
    destruct (t =? -2)%Z; ring.
Qed.

(** * The statements on the example states *)

Ltac Qcompare_closed :=
  first [ reflexivity
        | apply Qle_bool_iff; reflexivity
        | apply Qlt_bool_iff; reflexivity ].

(** Cell (0, 2): depth 2, elevation change 0.1 inside the partial-change
    band, prior fraction 0.5. *)
Lemma vegetation_mortality_hard_zero_witness :
  exists f',
    Np.cell (veg_frac (_vegetation_mortality example_vegetated)) 0 2 = Some f'
    /\ f' == 0.
Proof.
  apply (vegetation_mortality_hard_zero example_vegetated 0 2 0.1 2 0.5);
    [reflexivity | reflexivity | reflexivity | right; Qcompare_closed].
Defined.

(** Cell (2, 1): fraction 0.05, above the threshold [veg_b = 7/480]. *)
Lemma hook_run_water_iteration_weight_witness :
  Np.cell (mod_water_weight
             (base (hook_run_water_iteration example_vegetated))) 2 1
  = Some (Qclip (candidate_weight example_vegetated 0.05) 0 1).
Proof.
  apply (proj2 (hook_run_water_iteration_weight example_vegetated 2 1 0.05 1
                  eq_refl eq_refl)).
  apply Qle_not_lt. Qcompare_closed.
Defined.

Lemma hook_run_water_iteration_alpha_range_witness :
  Np.all (fun a => 0.001 <= a <= 0.1 /\ 0 < a)
         (veg_alpha (hook_run_water_iteration example_vegetated)).
Proof.
  apply (hook_run_water_iteration_alpha_range example_vegetated).
  vm_compute. repeat constructor; discriminate.
Defined.

(** Cell (1, 0): no vegetation, depth 0.3 in the establishment window, no
    elevation change. *)
Lemma vegetation_growth_code_variant_witness :
  Np.cell (veg_frac (_vegetation_growth example_vegetated)) 1 0
  = Some (logistic_step example_vegetated 0.05).
Proof.
  apply (proj1 (proj2 (vegetation_growth_code_variant example_vegetated
                         1 0 0 0.3 0 eq_refl eq_refl eq_refl))).
  - reflexivity.
  - right. split; Qcompare_closed.
Defined.

(** 250000 s on the timer, a time step of 25000 s, a flood duration of
    3 days = 259200 s: growth fires and the timer is reset. *)
Lemma growth_fires_iff_timer_reached_witness :
  In Call_vegetation_growth (calls_during example_vegetated)
  /\ time_since_interflood (hook_after_route_sediment example_vegetated) = 0.
Proof.
  destruct (growth_fires_iff_timer_reached example_vegetated eq_refl)
    as (Hiff & Hreset & _).
  assert (Hcall : In Call_vegetation_growth (calls_during example_vegetated)).
  { apply Hiff. Qcompare_closed. }
  split; [exact Hcall | exact (Hreset Hcall)].
Defined.

(** The same call: the sea level advances by the rise over the interflood
    duration of 100 days. *)
Lemma sea_level_advances_when_growth_fires_witness :
  In Call_vegetation_growth (calls_during example_vegetated)
  /\ H_SL (base (hook_after_route_sediment example_vegetated))
     = H_SL (base example_vegetated)
       + SLR (base example_vegetated)
         * veg_est_interflood_duration example_vegetated.
Proof.
  destruct (sea_level_advances_when_growth_fires example_vegetated)
    as (Hfires & _).
  apply Hfires; Qcompare_closed.
Defined.

(** Cell (0, 1): eroded by 0.3, more than the root depth 0.2, depth 0.3,
    prior fraction 0.5. *)
Lemma establishment_change_criterion_is_signed_witness :
  Np.cell (veg_frac (hook_after_route_sediment example_vegetated)) 0 1
  = Some (Qclip (logistic_step example_vegetated 0.05) 0 1).
Proof.
  destruct (establishment_change_criterion_is_signed example_vegetated
              0 1 0 0.3 0.3 0.5
              ltac:(Qcompare_closed) ltac:(Qcompare_closed)
              eq_refl eq_refl eq_refl eq_refl) as (_ & Hkill).
  destruct (Hkill ltac:(Qcompare_closed)) as (_ & Hgrow).
  apply Hgrow; Qcompare_closed.
Defined.

(** The state the set-up hook builds: stability field 1 at every cell,
    the host's 8-neighbour kernel, one sub-iteration.  At the centre cell
    the factor is 8: the override takes the elevation from 1 to -127, a
    change of -128, the host's default step to -15, a change of -16. *)
Lemma topo_diffusion_scales_host_flux_witness :
  Np.eqv (eta (base (topo_diffusion (set_up example_host))))
         (eta (host_topo_diffusion_scaled
                 (flux_factor (set_up example_host)) example_host))
  /\ exists e_override e_host d,
       Np.cell (eta (base (topo_diffusion_pass (set_up example_host)))) 1 1
       = Some e_override
       /\ Np.cell (eta (host_topo_diffusion_pass example_host)) 1 1
          = Some e_host
       /\ Np.cell (flux_factor (set_up example_host)) 1 1 = Some d
       /\ e_override - 1 == d * (e_host - 1).
Proof.
  destruct (topo_diffusion_scales_host_flux 3 3 (set_up example_host))
    as (Hall & Hcell).
  - repeat split; repeat constructor.
  - split; [exact Hall | exact (Hcell 1%nat 1%nat 1 eq_refl)].
Defined.

(** * Where the specification and the code part *)


(** C8 as stated fails: in the state the set-up hook builds, the stability
    field is 1 at every cell, and one pass with the host's 8-neighbour
    kernel takes the centre cell from 1 to -127, where the host's default
    step takes it to -15: the convolved stability field is 8 there. *)
Lemma topo_diffusion_with_unit_alpha_is_not_host :
  Np.all (fun x => x = 1) (veg_alpha (set_up example_host))
  /\ Np.cell (Ndimage.convolve (veg_alpha (set_up example_host))
                (kernel2 example_host)) 1 1 = Some 8
  /\ Np.cell (eta (base (topo_diffusion (set_up example_host)))) 1 1
     = Some (-127)
  /\ Np.cell (eta (host_topo_diffusion example_host)) 1 1 = Some (-15)
  /\ ~ Np.eqv (eta (base (topo_diffusion (set_up example_host))))
              (eta (host_topo_diffusion (base (set_up example_host)))).
Proof.
  split; [vm_compute; repeat constructor|].
  split; [reflexivity|]. split; [reflexivity|]. split; [reflexivity|].
  intros H.
  destruct (eqv_cell_l _ _ 1%nat 1%nat (-127) H eq_refl) as (y & Hy & Hxy).
  vm_compute in Hy. inversion Hy; subst y.
  vm_compute in Hxy. discriminate.
Qed.

(** C9 as stated fails when the rate-of-change fraction is negative, which
    the code accepts.  With a fraction of -0.01 and the root depth 0.2 the
    threshold is -0.002: cell (2, 1), eroded by 0.001, does not satisfy the
    change criterion.  With a fraction of -2 the threshold is -0.4: cell
    (0, 1), eroded by 0.3, more than the root depth, at depth 0.3 below the
    establishment depth 0.5, is set to 0 by mortality and is not
    established again on the call where growth fires. *)
Lemma negative_change_can_fail_the_change_criterion :
  (0 < veg_d_root (example_vegetated_with_roc (-0.01))
   /\ Np.cell (eta_change (example_vegetated_with_roc (-0.01))) 2 1
      = Some (-0.001)
   /\ Np.cell (_where_nochange (example_vegetated_with_roc (-0.01))) 2 1
      = Some false)
  /\ (Np.cell (eta_change (example_vegetated_with_roc (-2))) 0 1
      = Some (-0.3)
      /\ -0.3 < - veg_d_root (example_vegetated_with_roc (-2))
      /\ Np.cell (depth (base (example_vegetated_with_roc (-2)))) 0 1
         = Some 0.3
      /\ 0.3 < veg_est_depth (example_vegetated_with_roc (-2))
      /\ In Call_vegetation_growth
            (calls_during (example_vegetated_with_roc (-2)))
      /\ Np.cell (_where_nochange (example_vegetated_with_roc (-2))) 0 1
         = Some false
      /\ exists f,
           Np.cell (veg_frac (hook_after_route_sediment
                                (example_vegetated_with_roc (-2)))) 0 1
           = Some f
           /\ f == 0
           /\ ~ f == Qclip (logistic_step (example_vegetated_with_roc (-2))
                              (veg_est_init
                                 (example_vegetated_with_roc (-2)))) 0 1).
Proof.
  split.
  - split; [reflexivity|]. split; reflexivity.
  - split; [reflexivity|]. split; [reflexivity|]. split; [reflexivity|].
    split; [reflexivity|].
    split; [apply growth_called_iff; split; Qcompare_closed|].
    split; [reflexivity|].
    eexists. split; [vm_compute; reflexivity|].
    split; [reflexivity|]. vm_compute. discriminate.
Qed.

(** * Further properties of the vegetation rules *)

(** ** Mortality, cell by cell *)

Lemma Qabs_opp_eq (x : Q) : Qabs (- x) = Qabs x.
Proof. destruct x as [n d]. unfold Qabs, Qopp. simpl. f_equal. apply Z.abs_opp. Qed.

Lemma mortality_at_opp (d_root dc d f : Q) :
  mortality_at d_root (- dc) d f = mortality_at d_root dc d f.
Proof. unfold mortality_at. rewrite Qabs_opp_eq. reflexivity. Qed.

Lemma band_ratio_bounds (x r : Q) : 0 <= x -> x < r -> 0 <= x / r /\ x / r < 1.
Proof.
  intros H0 Hr. assert (Hpos : 0 < r) by lra. split.
  - apply Qle_shift_div_l; [exact Hpos | lra].
  - apply Qlt_shift_div_r; [exact Hpos | lra].
Qed.

Lemma mortality_at_bounds (d_root dc d f : Q) :
  0 <= f -> 0 <= mortality_at d_root dc d f <= f.
Proof.
  intros Hf. unfold mortality_at.
  destruct (Qle_bool d_root (Qabs dc)) eqn:E1;
    destruct (Qlt_bool 1 d) eqn:E2;
    destruct (Qlt_bool 0 (Qabs dc) && Qlt_bool (Qabs dc) d_root) eqn:E3;
    cbv zeta; try (split; lra).
  - apply andb_true_iff in E3 as [E3 E4].
    apply Qlt_bool_iff in E3, E4.
    destruct (band_ratio_bounds (Qabs dc) d_root) as [Hq0 Hq1]; [lra | lra |].
    split; nra.
Qed.

Lemma mortality_at_partial (d_root dc d f : Q) :
  d <= 1 -> Qabs dc < d_root ->
  mortality_at d_root dc d f == f * (1 - Qabs dc / d_root).
Proof.
  intros Hd Hband. unfold mortality_at.
  assert (E1 : Qle_bool d_root (Qabs dc) = false)
    by (apply Qle_bool_false, Hband).
  assert (E2 : Qlt_bool 1 d = false) by (apply Qlt_bool_false, Hd).
  assert (E4 : Qlt_bool (Qabs dc) d_root = true)
    by (apply Qlt_bool_iff, Hband).
  rewrite E1, E2, E4, andb_true_r. cbv zeta.
  destruct (Qlt_bool 0 (Qabs dc)) eqn:E3; [reflexivity|].
  apply Qlt_bool_false in E3.
  assert (Hz : Qabs dc == 0) by (pose proof (Qabs_nonneg dc); lra).
  rewrite Hz. unfold Qdiv. ring.
Qed.

Lemma mortality_at_no_change (d_root dc d f : Q) :
  0 < d_root -> dc == 0 -> d <= 1 -> mortality_at d_root dc d f = f.
Proof.
  intros Hr Hz Hd. unfold mortality_at.
  assert (Ha : Qabs dc == 0) by (rewrite Hz; reflexivity).
  assert (E1 : Qle_bool d_root (Qabs dc) = false)
    by (apply Qle_bool_false; lra).
  assert (E2 : Qlt_bool 1 d = false) by (apply Qlt_bool_false, Hd).
  assert (E3 : Qlt_bool 0 (Qabs dc) = false) by (apply Qlt_bool_false; lra).
  rewrite E1, E2, E3. reflexivity.
Qed.

(** X1: [_vegetation_mortality] never raises a fraction and never makes a
    non-negative one negative: a cell that holds [f >= 0] holds a value
    between 0 and [f] afterwards, whatever the elevation change, the depth
    and the root depth. *)
Theorem vegetation_mortality_never_increases (self : VegetationModel)
    (i j : nat) (dc d f : Q) :
  Np.cell (eta_change self) i j = Some dc ->
  Np.cell (depth (base self)) i j = Some d ->
  Np.cell (veg_frac self) i j = Some f ->
  0 <= f ->
  exists f', Np.cell (veg_frac (_vegetation_mortality self)) i j = Some f'
             /\ 0 <= f' <= f.
Proof.
  intros Hc Hd Hf Hpos.
  exists (mortality_at (veg_d_root self) dc d f). split.
  - apply mortality_cell; assumption.
  - apply mortality_at_bounds, Hpos.
Qed.

Lemma vegetation_mortality_never_increases_witness :
  exists f',
    Np.cell (veg_frac (_vegetation_mortality example_vegetated)) 0 0 = Some f'
    /\ 0 <= f' <= 0.5.
Proof.
  apply (vegetation_mortality_never_increases example_vegetated 0 0 0.1 0.05
           0.5); Qcompare_closed.
Defined.

(** X2: at a cell that neither hard rule kills (depth at most 1, absolute
    elevation change below the root depth) [_vegetation_mortality] scales
    the fraction by [1 - |eta_change| / veg_d_root]; with no elevation
    change at all the fraction is left exactly as it was. *)
Theorem vegetation_mortality_partial_change (self : VegetationModel)
    (i j : nat) (dc d f : Q) :
  Np.cell (eta_change self) i j = Some dc ->
  Np.cell (depth (base self)) i j = Some d ->
  Np.cell (veg_frac self) i j = Some f ->
  d <= 1 ->
  Qabs dc < veg_d_root self ->
  (exists f', Np.cell (veg_frac (_vegetation_mortality self)) i j = Some f'
              /\ f' == f * (1 - Qabs dc / veg_d_root self))
  /\ (dc == 0 ->
      Np.cell (veg_frac (_vegetation_mortality self)) i j = Some f).
Proof.
  intros Hc Hd Hf Hdepth Hband.
  rewrite (mortality_cell self i j dc d f Hc Hd Hf). split.
  - eexists. split; [reflexivity|].
    apply mortality_at_partial; assumption.
  - intros Hz. f_equal. apply mortality_at_no_change; [|exact Hz|exact Hdepth].
    pose proof (Qabs_nonneg dc). lra.
Qed.

Lemma vegetation_mortality_partial_change_witness :
  exists f',
    Np.cell (veg_frac (_vegetation_mortality example_vegetated)) 0 0 = Some f'
    /\ f' == 0.5 * (1 - Qabs 0.1 / veg_d_root example_vegetated).
Proof.
  refine (proj1 (vegetation_mortality_partial_change example_vegetated
                   0 0 0.1 0.05 0.5 _ _ _ _ _)); Qcompare_closed.
Defined.

(** X3: [_vegetation_mortality] reads the elevation change through its
    absolute value only: erosion and deposition of the same magnitude give
    the same fraction. *)
Theorem vegetation_mortality_sign_symmetric (self : VegetationModel)
    (i j : nat) (dc d f : Q) :
  Np.cell (eta_change self) i j = Some dc ->
  Np.cell (depth (base self)) i j = Some d ->
  Np.cell (veg_frac self) i j = Some f ->
  Np.cell (veg_frac (_vegetation_mortality
                       (set_eta_change (Np.amap Qopp (eta_change self))
                          self))) i j
  = Np.cell (veg_frac (_vegetation_mortality self)) i j.
Proof.
  intros Hc Hd Hf.
  rewrite (mortality_cell self i j dc d f Hc Hd Hf).
  rewrite (mortality_cell _ i j (- dc) d f).
  - f_equal. apply mortality_at_opp.
  - apply (cell_amap_Some Qopp (eta_change self) i j dc Hc).
  - exact Hd.
  - exact Hf.
Qed.

Lemma vegetation_mortality_sign_symmetric_witness :
  Np.cell (veg_frac (_vegetation_mortality
                       (set_eta_change
                          (Np.amap Qopp (eta_change example_vegetated))
                          example_vegetated))) 0 0
  = Np.cell (veg_frac (_vegetation_mortality example_vegetated)) 0 0.
Proof.
  apply (vegetation_mortality_sign_symmetric example_vegetated 0 0 0.1 0.05
           0.5); Qcompare_closed.
Defined.

(** ** Growth, cell by cell *)

Lemma where_valid_cell (flag : growth_flag) (self : VegetationModel)
    i j dc d f :
  Np.cell (eta_change self) i j = Some dc ->
  Np.cell (depth (base self)) i j = Some d ->
  Np.cell (veg_frac self) i j = Some f ->
  Np.cell (_where_valid flag self) i j =
    Some (match flag with
          | code => valid_at self dc d f
          | paper =>
              Qlt_bool d (veg_est_depth self)
              && Qlt_bool dc (veg_est_roc self * veg_d_root self)
              && Qeq_bool f 0
          end).
Proof.
  intros Hc Hd Hf.
  destruct flag;
    cbv beta iota zeta delta
      [_where_valid _where_depth_and_nochange _where_depth _where_nochange
       _where_noveg];
    unfold Np.logical_and, Np.logical_or; cell_eval; reflexivity.
Qed.

Lemma logistic_step_zero (self : VegetationModel) (x : Q) :
  x == 0 -> logistic_step self x == 0.
Proof. intros H. unfold logistic_step. rewrite H. ring. Qed.

Lemma logistic_step_bounds (self : VegetationModel) (x : Q) :
  0 <= veg_est_interflood_duration self * veg_r self <= 1 ->
  0 <= x <= 1 ->
  x <= logistic_step self x <= 1.
Proof.
  intros [Hk0 Hk1] [Hx0 Hx1]. unfold logistic_step.
  set (k := veg_est_interflood_duration self * veg_r self) in *.
  assert (E : veg_est_interflood_duration self * (1 - x) * veg_r self * x
              == k * ((1 - x) * x)) by (unfold k; ring).
  rewrite E.
  assert (H1 : 0 <= (1 - x) * x) by (apply Qmult_le_0_compat; lra).
  assert (H2 : 0 <= k * ((1 - x) * x)) by (apply Qmult_le_0_compat; lra).
  assert (H3 : 0 <= (1 - k) * ((1 - x) * x))
    by (apply Qmult_le_0_compat; lra).
  assert (H4 : 0 <= (1 - x) * (1 - x)) by (apply Qmult_le_0_compat; lra).
  split; [lra|].
  assert (E2 : 1 - (x + k * ((1 - x) * x))
               == (1 - k) * ((1 - x) * x) + (1 - x) * (1 - x)) by ring.
  lra.
Qed.

(** X4: [_vegetation_growth] does not make vegetation appear where it may
    not establish: a cell of zero fraction that is not dry and fails the
    depth or the elevation-change criterion still holds zero afterwards. *)
Theorem vegetation_growth_keeps_ineligible_bare (self : VegetationModel)
    (i j : nat) (dc d f : Q) :
  Np.cell (eta_change self) i j = Some dc ->
  Np.cell (depth (base self)) i j = Some d ->
  Np.cell (veg_frac self) i j = Some f ->
  f == 0 ->
  dry_depth (base self) <= d ->
  veg_est_depth self <= d \/ veg_est_roc self * veg_d_root self <= dc ->
  exists f', Np.cell (veg_frac (_vegetation_growth self)) i j = Some f'
             /\ f' == 0.
Proof.
  intros Hc Hd Hf Hz Hdry Hcrit.
  rewrite (growth_cell self i j dc d f Hc Hd Hf).
  eexists. split; [reflexivity|].
  unfold growth_at, valid_at.
  apply Qlt_bool_false in Hdry. rewrite Hdry. cbn [orb].
  assert (E : Qlt_bool d (veg_est_depth self)
              && Qlt_bool dc (veg_est_roc self * veg_d_root self) = false).
  { apply andb_false_iff.
    destruct Hcrit as [H | H]; [left | right]; apply Qlt_bool_false, H. }
  rewrite E. cbn [andb]. apply logistic_step_zero, Hz.
Qed.

Lemma vegetation_growth_keeps_ineligible_bare_witness :
  exists f',
    Np.cell (veg_frac (_vegetation_growth example_vegetated)) 1 2 = Some f'
    /\ f' == 0.
Proof.
  apply (vegetation_growth_keeps_ineligible_bare example_vegetated 1 2
           0.05 2 0); try Qcompare_closed.
  left. Qcompare_closed.
Defined.

(** X5: the two establishment policies of [_vegetation_growth].  Every cell
    the "paper" policy selects is selected by the "code" policy; the two
    agree at every cell that is not dry; and under the "code" policy a dry
    cell without vegetation is selected whatever its elevation change. *)
Theorem establishment_paper_within_code (self : VegetationModel)
    (i j : nat) (dc d f : Q) :
  Np.cell (eta_change self) i j = Some dc ->
  Np.cell (depth (base self)) i j = Some d ->
  Np.cell (veg_frac self) i j = Some f ->
  (Np.cell (_where_valid paper self) i j = Some true ->
   Np.cell (_where_valid code self) i j = Some true)
  /\ (dry_depth (base self) <= d ->
      Np.cell (_where_valid paper self) i j
      = Np.cell (_where_valid code self) i j)
  /\ (d < dry_depth (base self) -> f == 0 ->
      Np.cell (_where_valid code self) i j = Some true).
Proof.
  intros Hc Hd Hf.
  rewrite (where_valid_cell paper self i j dc d f Hc Hd Hf).
  rewrite (where_valid_cell code self i j dc d f Hc Hd Hf).
  unfold valid_at. repeat split.
  - intros H. inversion H as [H1]. rewrite H1.
    apply andb_true_iff in H1 as [H1 H2]. rewrite H1, H2, orb_true_r.
    reflexivity.
  - intros Hdry. apply Qlt_bool_false in Hdry. rewrite Hdry. reflexivity.
  - intros Hdry Hz. apply Qlt_bool_iff in Hdry. apply Qeq_bool_iff in Hz.
    rewrite Hdry, Hz. reflexivity.
Qed.

Lemma establishment_paper_within_code_witness :
  Np.cell (_where_valid paper example_vegetated) 1 0 = Some true
  /\ Np.cell (_where_valid code example_vegetated) 1 0 = Some true.
Proof.
  destruct (establishment_paper_within_code example_vegetated 1 0 0 0.3 0
              eq_refl eq_refl eq_refl) as (Hsub & _ & _).
  assert (Hp : Np.cell (_where_valid paper example_vegetated) 1 0
               = Some true) by (vm_compute; reflexivity).
  split; [exact Hp | exact (Hsub Hp)].
Defined.

(** X6: when one growth event covers at most one logistic time unit
    ([0 <= veg_est_interflood_duration * veg_r <= 1]) and the initial
    fraction is in [0,1], [_vegetation_growth] keeps a fraction of [0,1]
    in [0,1] and never lowers it. *)
Theorem vegetation_growth_monotone_in_range (self : VegetationModel)
    (i j : nat) (dc d f : Q) :
  Np.cell (eta_change self) i j = Some dc ->
  Np.cell (depth (base self)) i j = Some d ->
  Np.cell (veg_frac self) i j = Some f ->
  0 <= veg_est_interflood_duration self * veg_r self <= 1 ->
  0 <= veg_est_init self <= 1 ->
  0 <= f <= 1 ->
  exists f', Np.cell (veg_frac (_vegetation_growth self)) i j = Some f'
             /\ f <= f' <= 1.
Proof.
  intros Hc Hd Hf Hk Hinit Hrange.
  rewrite (growth_cell self i j dc d f Hc Hd Hf).
  eexists. split; [reflexivity|].
  unfold growth_at.
  destruct (valid_at self dc d f) eqn:Hv.
  - unfold valid_at in Hv. apply andb_true_iff in Hv as [_ Hz].
    apply Qeq_bool_iff in Hz.
    pose proof (logistic_step_bounds self (veg_est_init self) Hk Hinit).
    split; lra.
  - apply logistic_step_bounds; assumption.
Qed.

Lemma vegetation_growth_monotone_in_range_witness :
  exists f',
    Np.cell (veg_frac (_vegetation_growth example_vegetated)) 1 1 = Some f'
    /\ 0.4 <= f' <= 1.
Proof.
  apply (vegetation_growth_monotone_in_range example_vegetated 1 1 1 0.05
           0.4); try Qcompare_closed; split; Qcompare_closed.
Defined.

(** ** The post-routing hook over time *)

Lemma hook_after_route_sediment_frame (self : VegetationModel) :
  veg_est_flood_duration (hook_after_route_sediment self)
  = veg_est_flood_duration self
  /\ _dt (base (hook_after_route_sediment self)) = _dt (base self)
  /\ vegetation (base (hook_after_route_sediment self))
     = vegetation (base self).
Proof.
  rewrite hook_after_route_sediment_unfold.
  destruct (vegetation (base self)) eqn:Hv;
    [destruct (Qle_bool _ _)|]; repeat split; try exact Hv.
Qed.

(** X7: with vegetation enabled and a positive flood duration, the timer
    is strictly below the flood duration when [hook_after_route_sediment]
    returns, on every call; and it is non-negative if it was and the time
    step is. *)
Theorem timer_stays_below_flood_duration (self : VegetationModel) :
  vegetation (base self) = true ->
  0 < veg_est_flood_duration self ->
  time_since_interflood (hook_after_route_sediment self)
  < veg_est_flood_duration (hook_after_route_sediment self)
  /\ (0 <= time_since_interflood self -> 0 <= _dt (base self) ->
      0 <= time_since_interflood (hook_after_route_sediment self)).
Proof.
  intros Hveg Hpos.
  destruct (hook_after_route_sediment_frame self) as (Hflood & _ & _).
  rewrite Hflood, hook_timer, Hveg.
  destruct (Qle_bool _ _) eqn:E.
  - split; [exact Hpos | intros; lra].
  - apply Qle_bool_false in E. split; [exact E | intros; lra].
Qed.

Lemma timer_stays_below_flood_duration_witness :
  time_since_interflood (hook_after_route_sediment example_vegetated)
  < veg_est_flood_duration (hook_after_route_sediment example_vegetated).
Proof.
  refine (proj1 (timer_stays_below_flood_duration example_vegetated _ _));
    Qcompare_closed.
Defined.

Lemma eqv_clip_in_range (a : Np.ndarray Q) (lo hi : Q) :
  Np.all (fun x => lo <= x <= hi) a -> Np.eqv (Np.clip a lo hi) a.
Proof.
  unfold Np.all, Np.eqv, Np.clip, Np.amap. intros Ha.
  apply Forall2_fmap_l.
  induction Ha as [|row rows Hrow _ IH]; constructor; [|exact IH].
  cbv beta. unfold compose. apply Forall2_fmap_l.
  induction Hrow as [|x xs Hx _ IHx]; constructor; [|exact IHx].
  unfold compose. apply Qclip_id; apply Hx.
Qed.

(** X8: with vegetation disabled, [hook_after_route_sediment] records the
    elevation change and clamps the fraction, and does nothing else: no
    private method is entered, the timer and the sea level keep their
    values, and a fraction field already in [0,1] is numerically
    unchanged. *)
Theorem hook_after_route_sediment_when_disabled (self : VegetationModel) :
  vegetation (base self) = false ->
  hook_after_route_sediment self
  = set_veg_frac (Np.clip (veg_frac self) 0 1)
      (set_eta_change (Np.sub (eta (base self)) (eta0 (base self))) self)
  /\ calls_during self = []
  /\ time_since_interflood (hook_after_route_sediment self)
     = time_since_interflood self
  /\ H_SL (base (hook_after_route_sediment self)) = H_SL (base self)
  /\ (Np.all (fun x => 0 <= x <= 1) (veg_frac self) ->
      Np.eqv (veg_frac (hook_after_route_sediment self)) (veg_frac self)).
Proof.
  intros Hoff.
  pose proof (hook_after_route_sediment_unfold self) as Hu.
  cbv zeta in Hu. rewrite Hoff in Hu.
  split; [exact Hu|].
  split; [rewrite calls_during_eq, Hoff; reflexivity|].
  split; [rewrite hook_timer, Hoff; reflexivity|].
  split; [rewrite hook_H_SL, Hoff; reflexivity|].
  intros Hrange. rewrite Hu, veg_frac_set_veg_frac.
  apply eqv_clip_in_range. exact Hrange.
Qed.

Lemma hook_after_route_sediment_when_disabled_witness :
  calls_during (set_up example_host_off) = []
  /\ Np.eqv (veg_frac (hook_after_route_sediment (set_up example_host_off)))
            (veg_frac (set_up example_host_off)).
Proof.
  destruct (hook_after_route_sediment_when_disabled (set_up example_host_off)
              eq_refl) as (_ & Hcalls & _ & _ & Hfrac).
  split; [exact Hcalls|].
  apply Hfrac. vm_compute. repeat constructor; discriminate.
Defined.

Lemma concat_entries_cons (b : bool) (fired : list bool) :
  concat (entries_of_call <$> (b :: fired))
  = entries_of_call b ++ concat (entries_of_call <$> fired).
Proof. reflexivity. Qed.

(** X9: mortality on every time step, growth only with it.  Starting with
    vegetation enabled, over any number of calls of
    [hook_after_route_sediment] (with anything in between that leaves the
    call log and the vegetation switch alone), every call enters the
    mortality rule exactly once, first, and the growth rule at most once,
    after it; vegetation stays enabled; and if growth fired on the last
    call the timer is 0 at the end. *)
Theorem mortality_on_every_call
    (gs : list (VegetationModel -> VegetationModel))
    (self : VegetationModel) :
  Forall keeps_call_log gs ->
  vegetation (base self) = true ->
  exists fired : list bool,
    length fired = length gs
    /\ calls (post_route_calls gs self)
       = calls self ++ concat (entries_of_call <$> fired)
    /\ vegetation (base (post_route_calls gs self)) = true
    /\ (last fired = Some true ->
        time_since_interflood (post_route_calls gs self) = 0).
Proof.
  intros Hgs. revert self.
  induction Hgs as [|g gs Hg Hgs IH]; intros self Hveg.
  - exists []. cbn [post_route_calls foldl]. rewrite app_nil_r.
    repeat split; [exact Hveg | discriminate].
  - change (post_route_calls (g :: gs) self)
      with (post_route_calls gs (hook_after_route_sediment (g self))).
    destruct (Hg self) as (Gc & Gv).
    assert (Hveg' : vegetation (base (g self)) = true)
      by (rewrite Gv; exact Hveg).
    destruct (hook_after_route_sediment_frame (g self)) as (_ & _ & Fv).
    pose proof (hook_calls (g self)) as Hc.
    pose proof (hook_timer (g self)) as Ht.
    rewrite Hveg', Gc in Hc. rewrite Hveg' in Ht.
    set (b := Qle_bool (veg_est_flood_duration (g self))
                (time_since_interflood (g self) + _dt (base (g self)))) in *.
    assert (Hc' : calls (hook_after_route_sediment (g self))
                  = calls self ++ entries_of_call b)
      by (rewrite Hc; destruct b; reflexivity).
    destruct (IH (hook_after_route_sediment (g self)))
      as (fired & Hlen & Hcalls & Hv & Hlast).
    { rewrite Fv. exact Hveg'. }
    exists (b :: fired).
    split; [cbn [length]; rewrite Hlen; reflexivity|].
    split; [rewrite Hcalls, Hc', concat_entries_cons, app_assoc;
            reflexivity|].
    split; [exact Hv|].
    destruct fired as [|b' fired].
    + destruct gs; [|discriminate].
      cbn [post_route_calls foldl last]. intros E. inversion E as [Eb].
      rewrite Ht, Eb. reflexivity.
    + exact Hlast.
Qed.

Lemma hook_run_water_iteration_keeps_call_log :
  keeps_call_log hook_run_water_iteration.
Proof. intros s. repeat split. Qed.

Lemma topo_diffusion_keeps_call_log : keeps_call_log topo_diffusion.
Proof.
  intros s. unfold topo_diffusion.
  destruct (topo_diffusion_iter_only_eta_cf (N_crossdiff (base s)) s)
    as (e & c & E).
  rewrite E. split; reflexivity.
Qed.

Lemma example_step_keeps_call_log : keeps_call_log example_step.
Proof.
  intros s. unfold example_step.
  destruct (topo_diffusion_keeps_call_log (hook_run_water_iteration s))
    as (Hc & Hv).
  destruct (hook_run_water_iteration_keeps_call_log s) as (Hc' & Hv').
  rewrite Hc, Hv. split; assumption.
Qed.

(** Eleven time steps of 25000 s from the set-up state, against a flood
    duration of 259200 s. *)
Lemma mortality_on_every_call_witness :
  exists fired : list bool,
    length fired = 11%nat
    /\ calls (post_route_calls (replicate 11 example_step)
                (set_up example_host))
       = concat (entries_of_call <$> fired)
    /\ vegetation (base (post_route_calls (replicate 11 example_step)
                           (set_up example_host))) = true
    /\ (last fired = Some true ->
        time_since_interflood
          (post_route_calls (replicate 11 example_step)
             (set_up example_host)) = 0).
Proof.
  destruct (mortality_on_every_call (replicate 11 example_step)
              (set_up example_host)) as (fired & Hlen & Hrest).
  - apply Forall_replicate, example_step_keeps_call_log.
  - reflexivity.
  - exists fired. split; [|exact Hrest].
    rewrite Hlen. apply length_replicate.
Defined.

(** ** Flow-weight modulation, further *)

Lemma pi_nonzero : ~ pi == 0.
Proof. unfold pi. intros H. vm_compute in H. discriminate. Qed.

Lemma Qclip_mono (x y lo hi : Q) :
  x <= y -> Qclip x lo hi <= Qclip y lo hi.
Proof.
  intros Hxy. unfold Qclip.
  pose proof (Q.max_spec x lo) as Hmx. pose proof (Q.max_spec y lo) as Hmy.
  pose proof (Q.min_spec hi (Qmax x lo)) as Hnx.
  pose proof (Q.min_spec hi (Qmax y lo)) as Hny.
  revert Hmx Hmy Hnx Hny.
  generalize (Qmin hi (Qmax x lo)) (Qmin hi (Qmax y lo)).
  generalize (Qmax x lo) (Qmax y lo).
  intros mx my nx ny [[? ?] | [? ?]] [[? ?] | [? ?]]
         [[? ?] | [? ?]] [[? ?] | [? ?]]; lra.
Qed.

Lemma Qclip_wd (x y lo hi : Q) : x == y -> Qclip x lo hi == Qclip y lo hi.
Proof.
  intros Hxy. apply Qle_antisym; apply Qclip_mono; lra.
Qed.

Lemma Qclip_above (x lo hi : Q) : lo <= hi -> hi <= x -> Qclip x lo hi == hi.
Proof.
  intros Hlh Hx. unfold Qclip.
  pose proof (Q.max_spec x lo) as Hm.
  pose proof (Q.min_spec hi (Qmax x lo)) as Hn.
  revert Hm Hn. generalize (Qmin hi (Qmax x lo)) (Qmax x lo).
  intros n m [[? ?] | [? ?]] [[? ?] | [? ?]]; lra.
Qed.

Lemma water_weight_cell_at (self : VegetationModel) i j f w0 :
  Np.cell (veg_frac self) i j = Some f ->
  Np.cell (mod_water_weight (base self)) i j = Some w0 ->
  Np.cell (mod_water_weight (base (hook_run_water_iteration self))) i j
  = Some (weight_at self f).
Proof. intros Hf Hw. exact (water_weight_cell self i j f w0 Hf Hw). Qed.

Lemma candidate_weight_closed_form (self : VegetationModel) (f : Q) :
  ~ veg_d_stem self == 0 -> ~ veg_K self == 0 ->
  coefficients_as_set_up self ->
  candidate_weight self f
  == 1 - (4 # 15) * (veg_d_stem self * veg_K self * f - 0.7).
Proof.
  intros Hd HK [Hb HA]. unfold candidate_weight.
  rewrite HA, Hb. pose proof pi_nonzero as Hpi.
  field. repeat split; assumption.
Qed.

Lemma threshold_times_density (self : VegetationModel) :
  ~ veg_d_stem self == 0 -> ~ veg_K self == 0 ->
  coefficients_as_set_up self ->
  veg_b self * (veg_d_stem self * veg_K self) == 0.7.
Proof.
  intros Hd HK [Hb _]. rewrite Hb. field. split; assumption.
Qed.

Lemma weight_at_mono (self : VegetationModel) (f1 f2 : Q) :
  ~ veg_d_stem self == 0 -> ~ veg_K self == 0 ->
  coefficients_as_set_up self ->
  f1 <= f2 -> weight_at self f2 <= weight_at self f1.
Proof.
  intros Hd HK Hco Hle. unfold weight_at.
  pose proof (threshold_times_density self Hd HK Hco) as Hb.
  pose proof (candidate_weight_closed_form self f1 Hd HK Hco) as Hc1.
  pose proof (candidate_weight_closed_form self f2 Hd HK Hco) as Hc2.
  set (dK := veg_d_stem self * veg_K self) in *.
  set (b := veg_b self) in *.
  assert (Hone : Qclip 1 0 1 == 1) by reflexivity.
  (* above the threshold the candidate is at most 1 when dK > 0 and at
     least 1 when dK < 0 *)
  assert (Hside : forall f, b <= f ->
            (0 < dK -> dK * f >= 0.7) /\ (dK < 0 -> dK * f <= 0.7)).
  { intros f Hf. split; intros Hs.
    - assert (0 <= dK * (f - b)) by (apply Qmult_le_0_compat; lra).
      assert (dK * (f - b) == dK * f - b * dK) by ring. lra.
    - assert (0 <= (- dK) * (f - b)) by (apply Qmult_le_0_compat; lra).
      assert ((- dK) * (f - b) == b * dK - dK * f) by ring. lra. }
  destruct (Q_dec dK 0) as [[Hneg | Hpos] | Hzero].
  - (* dK < 0: the weight is 1 wherever it is defined *)
    assert (Hall : forall f,
              Qclip (if Qle_bool b f then candidate_weight self f else 1) 0 1
              == 1).
    { intros f. destruct (Qle_bool b f) eqn:E; [|exact Hone].
      apply Qle_bool_iff in E. apply Qclip_above; [lra|].
      pose proof (candidate_weight_closed_form self f Hd HK Hco) as Hc.
      fold dK in Hc. destruct (Hside f E) as [_ Hs]. specialize (Hs Hneg).
      lra. }
    rewrite (Hall f1), (Hall f2). lra.
  - destruct (Qle_bool b f1) eqn:E1.
    + apply Qle_bool_iff in E1.
      assert (E2 : Qle_bool b f2 = true) by (apply Qle_bool_iff; lra).
      rewrite E2. apply Qclip_mono.
      assert (0 <= dK * (f2 - f1)) by (apply Qmult_le_0_compat; lra).
      assert (dK * (f2 - f1) == dK * f2 - dK * f1) by ring. lra.
    + rewrite Hone. apply Qclip_bounds. lra.
  - exfalso. unfold dK in Hzero.
    destruct (Qmult_integral _ _ Hzero); contradiction.
Qed.

(** X10: every cell of the water-weight field is in [0,1] when
    [hook_run_water_iteration] returns, whatever the fractions and the
    coefficients. *)
Theorem hook_run_water_iteration_weight_range (self : VegetationModel) :
  Np.all (fun w => 0 <= w <= 1)
         (mod_water_weight (base (hook_run_water_iteration self))).
Proof.
  cbv beta iota zeta delta
    [hook_run_water_iteration with_base set_mod_water_weight set_veg_alpha
     mod_water_weight base].
  unfold Np.clip. apply all_amap. intros x. apply Qclip_bounds. lra.
Qed.

(** X11: with the coefficients of the set-up hook and a non-zero stem
    diameter and density, the weight [hook_run_water_iteration] writes at
    a cell at or above the density threshold is
    [1 - 4/15 * (d_stem * K * fraction - 0.7)] clamped into [0,1]: it does
    not depend on [np.pi], and equals 1 at the threshold itself. *)
Theorem hook_run_water_iteration_weight_closed_form
    (self : VegetationModel) (i j : nat) (f w0 : Q) :
  ~ veg_d_stem self == 0 -> ~ veg_K self == 0 ->
  coefficients_as_set_up self ->
  Np.cell (veg_frac self) i j = Some f ->
  Np.cell (mod_water_weight (base self)) i j = Some w0 ->
  veg_b self <= f ->
  exists w,
    Np.cell (mod_water_weight (base (hook_run_water_iteration self))) i j
    = Some w
    /\ w == Qclip (1 - (4 # 15) * (veg_d_stem self * veg_K self * f - 0.7))
                  0 1
    /\ (f == veg_b self -> w == 1).
Proof.
  intros Hd HK Hco Hf Hw Hb.
  exists (weight_at self f).
  split; [exact (water_weight_cell_at self i j f w0 Hf Hw)|].
  unfold weight_at. apply Qle_bool_iff in Hb. rewrite Hb.
  pose proof (candidate_weight_closed_form self f Hd HK Hco) as Hc.
  split; [apply Qclip_wd, Hc|].
  intros Heq. pose proof (threshold_times_density self Hd HK Hco) as Ht.
  rewrite (Qclip_wd _ 1); [reflexivity|].
  rewrite Hc.
  assert (E : veg_d_stem self * veg_K self * f
              == veg_b self * (veg_d_stem self * veg_K self))
    by (rewrite Heq; ring).
  rewrite E, Ht. reflexivity.
Qed.

Lemma hook_run_water_iteration_weight_closed_form_witness :
  exists w,
    Np.cell (mod_water_weight
               (base (hook_run_water_iteration example_vegetated))) 2 1
    = Some w
    /\ w == Qclip (1 - (4 # 15) * (0.06 * 800 * 0.05 - 0.7)) 0 1.
Proof.
  destruct (hook_run_water_iteration_weight_closed_form example_vegetated
              2 1 0.05 1) as (w & Hw & Hc & _).
  - vm_compute. discriminate.
  - vm_compute. discriminate.
  - split; vm_compute; reflexivity.
  - reflexivity.
  - reflexivity.
  - Qcompare_closed.
  - exists w. split; [exact Hw | exact Hc].
Defined.

(** X12: with the coefficients of the set-up hook, more vegetation never
    means more routing weight: of two cells, the one with the larger
    fraction gets the smaller or equal weight from
    [hook_run_water_iteration]. *)
Theorem hook_run_water_iteration_weight_monotone
    (self : VegetationModel) (i1 j1 i2 j2 : nat) (f1 f2 w1 w2 : Q) :
  ~ veg_d_stem self == 0 -> ~ veg_K self == 0 ->
  coefficients_as_set_up self ->
  Np.cell (veg_frac self) i1 j1 = Some f1 ->
  Np.cell (veg_frac self) i2 j2 = Some f2 ->
  Np.cell (mod_water_weight (base self)) i1 j1 = Some w1 ->
  Np.cell (mod_water_weight (base self)) i2 j2 = Some w2 ->
  f1 <= f2 ->
  exists w1' w2',
    Np.cell (mod_water_weight (base (hook_run_water_iteration self))) i1 j1
    = Some w1'
    /\ Np.cell (mod_water_weight (base (hook_run_water_iteration self)))
         i2 j2 = Some w2'
    /\ w2' <= w1'.
Proof.
  intros Hd HK Hco Hf1 Hf2 Hw1 Hw2 Hle.
  exists (weight_at self f1), (weight_at self f2).
  split; [exact (water_weight_cell_at self i1 j1 f1 w1 Hf1 Hw1)|].
  split; [exact (water_weight_cell_at self i2 j2 f2 w2 Hf2 Hw2)|].
  apply weight_at_mono; assumption.
Qed.

Lemma hook_run_water_iteration_weight_monotone_witness :
  exists w1' w2',
    Np.cell (mod_water_weight
               (base (hook_run_water_iteration example_vegetated))) 2 1
    = Some w1'
    /\ Np.cell (mod_water_weight
                  (base (hook_run_water_iteration example_vegetated))) 1 1
       = Some w2'
    /\ w2' <= w1'.
Proof.
  apply (hook_run_water_iteration_weight_monotone example_vegetated
           2 1 1 1 0.05 0.4 1 1); try Qcompare_closed.
  - vm_compute. discriminate.
  - vm_compute. discriminate.
  - split; vm_compute; reflexivity.
Defined.

(** ** Diffusion, further *)

Lemma topo_diffusion_pass_untouched (self : VegetationModel) :
  qs (base (topo_diffusion_pass self)) = qs (base self)
  /\ cell_type (base (topo_diffusion_pass self)) = cell_type (base self)
  /\ depth (base (topo_diffusion_pass self)) = depth (base self)
  /\ kernel2 (base (topo_diffusion_pass self)) = kernel2 (base self)
  /\ veg_alpha (topo_diffusion_pass self) = veg_alpha self
  /\ veg_frac (topo_diffusion_pass self) = veg_frac self.
Proof. repeat split. Qed.

Lemma topo_diffusion_iter_untouched (n : nat) (self : VegetationModel) :
  qs (base (Nat.iter n topo_diffusion_pass self)) = qs (base self)
  /\ cell_type (base (Nat.iter n topo_diffusion_pass self))
     = cell_type (base self)
  /\ depth (base (Nat.iter n topo_diffusion_pass self)) = depth (base self)
  /\ kernel2 (base (Nat.iter n topo_diffusion_pass self))
     = kernel2 (base self)
  /\ veg_alpha (Nat.iter n topo_diffusion_pass self) = veg_alpha self
  /\ veg_frac (Nat.iter n topo_diffusion_pass self) = veg_frac self.
Proof.
  induction n as [|n (Hq & Ht & Hd & Hk & Ha & Hf)]; [repeat split|].
  rewrite Nat.iter_succ.
  destruct (topo_diffusion_pass_untouched (Nat.iter n topo_diffusion_pass self))
    as (Pq & Pt & Pd & Pk & Pa & Pf).
  rewrite Pq, Pt, Pd, Pk, Pa, Pf. repeat split; assumption.
Qed.

Lemma topo_diffusion_iter_shape L W (n : nat) (self : VegetationModel) :
  grid_shaped L W self -> grid_shaped L W (Nat.iter n topo_diffusion_pass self).
Proof.
  intros Hs. induction n as [|n IH]; [exact Hs|].
  rewrite Nat.iter_succ. apply topo_diffusion_pass_shape, IH.
Qed.

Lemma topo_diffusion_iter_boundary L W (n : nat) (self : VegetationModel)
    i j e (t : Z) :
  grid_shaped L W self ->
  Np.cell (eta (base self)) i j = Some e ->
  Np.cell (cell_type (base self)) i j = Some t ->
  i = 0%nat \/ t = (-2)%Z ->
  exists e',
    Np.cell (eta (base (Nat.iter n topo_diffusion_pass self))) i j = Some e'
    /\ e' == e.
Proof.
  intros Hshape He Ht Hb.
  induction n as [|n (e1 & He1 & Hee)]; [exists e; split; [exact He|reflexivity]|].
  rewrite Nat.iter_succ.
  set (s := Nat.iter n topo_diffusion_pass self) in *.
  pose proof (topo_diffusion_iter_shape L W n self Hshape) as Hsn.
  fold s in Hsn. destruct Hsn as (Hse & Hsq & Hst & Hsa).
  destruct (has_shape_cell_lt L W _ i j e1 Hse He1) as [Hi Hj].
  destruct (has_shape_cell L W _ i j Hsq Hi Hj) as [q Hq].
  destruct (has_shape_cell L W _ i j Hsa Hi Hj) as [al Hal].
  destruct (topo_diffusion_iter_untouched n self) as (_ & Hct & _).
  fold s in Hct.
  assert (Ht' : Np.cell (cell_type (base s)) i j = Some t)
    by (rewrite Hct; exact Ht).
  rewrite (topo_diffusion_pass_cell s i j e1 q t al He1 Hq Ht' Hal).
  eexists. split; [reflexivity|].
  destruct Hb as [-> | ->]; cbn [Nat.eqb].
  - rewrite Hee. ring.
  - destruct (Nat.eqb i 0); cbn [Z.eqb Pos.eqb]; rewrite Hee; ring.
Qed.

(** X13: [topo_diffusion] leaves the elevation of the first row and of the
    cells of type [-2] numerically unchanged, whatever the number of
    passes, the kernels and the other fields. *)
Theorem topo_diffusion_keeps_boundary (L W : nat) (self : VegetationModel)
    (i j : nat) (e : Q) (t : Z) :
  grid_shaped L W self ->
  Np.cell (eta (base self)) i j = Some e ->
  Np.cell (cell_type (base self)) i j = Some t ->
  i = 0%nat \/ t = (-2)%Z ->
  exists e',
    Np.cell (eta (base (topo_diffusion self))) i j = Some e' /\ e' == e.
Proof.
  intros Hshape He Ht Hb. unfold topo_diffusion.
  exact (topo_diffusion_iter_boundary L W _ self i j e t Hshape He Ht Hb).
Qed.

Lemma topo_diffusion_keeps_boundary_witness :
  exists e',
    Np.cell (eta (base (topo_diffusion (set_up example_host)))) 2 2 = Some e'
    /\ e' == 0.
Proof.
  apply (topo_diffusion_keeps_boundary 3 3 (set_up example_host) 2 2 0 (-2)).
  - repeat split; repeat constructor.
  - reflexivity.
  - reflexivity.
  - right. reflexivity.
Defined.

(** X14: [topo_diffusion] keeps the grid's shape and changes nothing but
    the elevation and the flux [cf]: the state it returns is the state it
    was given with these two attributes of the host replaced.  Every other
    attribute of the host and of the vegetation model is as before: sea
    level, flow weights, the elevation of the previous time step, sediment
    flux, cell types, depth, kernels, stability field, vegetation fraction,
    recorded elevation change, timer, constants and call log. *)
Theorem topo_diffusion_frame (L W : nat) (self : VegetationModel) :
  grid_shaped L W self ->
  grid_shaped L W (topo_diffusion self)
  /\ qs (base (topo_diffusion self)) = qs (base self)
  /\ cell_type (base (topo_diffusion self)) = cell_type (base self)
  /\ depth (base (topo_diffusion self)) = depth (base self)
  /\ veg_alpha (topo_diffusion self) = veg_alpha self
  /\ veg_frac (topo_diffusion self) = veg_frac self
  /\ topo_diffusion self
     = with_base
         (fun m => set_eta (eta (base (topo_diffusion self)))
                     (set_cf (cf (base (topo_diffusion self))) m))
         self.
Proof.
  intros Hshape. unfold topo_diffusion.
  destruct (topo_diffusion_iter_untouched (N_crossdiff (base self)) self)
    as (Hq & Ht & Hd & _ & Ha & Hf).
  split; [apply topo_diffusion_iter_shape, Hshape|].
  repeat (split; [assumption|]).
  destruct (topo_diffusion_iter_only_eta_cf (N_crossdiff (base self)) self)
    as (e & c & E).
  rewrite E. reflexivity.
Qed.

Lemma topo_diffusion_frame_witness :
  grid_shaped 3 3 (topo_diffusion (set_up example_host))
  /\ veg_frac (topo_diffusion (set_up example_host))
     = veg_frac (set_up example_host)
  /\ topo_diffusion (set_up example_host)
     = with_base
         (fun m =>
            set_eta (eta (base (topo_diffusion (set_up example_host))))
              (set_cf (cf (base (topo_diffusion (set_up example_host)))) m))
         (set_up example_host).
Proof.
  destruct (topo_diffusion_frame 3 3 (set_up example_host))
    as (Hs & _ & _ & _ & _ & Hf & Heq).
  - repeat split; repeat constructor.
  - split; [exact Hs | split; [exact Hf | exact Heq]].
Defined.

Lemma all_of_cells {A} (P : A -> Prop) (a : Np.ndarray A) :
  (forall i j x, Np.cell a i j = Some x -> P x) -> Np.all P a.
Proof.
  intros H. unfold Np.all. apply Forall_lookup. intros i row Hrow.
  apply Forall_lookup. intros j x Hx. apply (H i j x).
  unfold Np.cell. rewrite Hrow. exact Hx.
Qed.

Lemma cell_convolve_inv (input weights : Np.ndarray Q) i j x :
  Np.cell (Ndimage.convolve input weights) i j = Some x ->
  x = Ndimage.convolve_at input weights i j.
Proof.
  unfold Np.cell, Ndimage.convolve. rewrite list_lookup_imap.
  destruct (input !! i) as [row|]; simpl; [|discriminate].
  rewrite list_lookup_imap.
  destruct (row !! j) as [y|]; simpl; [|discriminate].
  intros H. inversion H. reflexivity.
Qed.

Lemma padded_zero (a : Np.ndarray Q) (i j : Z) :
  Np.all (fun x => x == 0) a -> Ndimage.padded a i j == 0.
Proof.
  intros Ha. unfold Ndimage.padded.
  destruct ((i <? 0) || (j <? 0))%Z; [reflexivity|].
  destruct (Np.cell a (Z.to_nat i) (Z.to_nat j)) as [x|] eqn:Hx;
    [|reflexivity].
  exact (all_cell _ a _ _ x Ha Hx).
Qed.

Lemma Qsum_imap_zero {A} (f : nat -> A -> Q) (l : list A) :
  (forall p w, f p w == 0) -> Ndimage.Qsum (imap f l) == 0.
Proof.
  revert f. induction l as [|w l IH]; intros f Hf; [reflexivity|].
  simpl. rewrite (Hf 0%nat w), (IH (f ∘ S)); [reflexivity|].
  intros p w'. apply Hf.
Qed.

Lemma convolve_at_zero (a weights : Np.ndarray Q) (i j : nat) :
  Np.all (fun x => x == 0) a -> Ndimage.convolve_at a weights i j == 0.
Proof.
  intros Ha. unfold Ndimage.convolve_at. cbv zeta.
  apply Qsum_imap_zero. intros p wrow.
  apply Qsum_imap_zero. intros q w.
  rewrite (padded_zero a _ _ Ha). ring.
Qed.

Lemma all_zero_mul_l (q e : Np.ndarray Q) :
  Np.all (fun x => x == 0) q -> Np.all (fun x => x == 0) (Np.mul q e).
Proof.
  intros Hq. apply all_of_cells. intros i j x Hx.
  apply cell_amap2_inv in Hx as (a & b & Ha & _ & ->).
  rewrite (all_cell _ q i j a Hq Ha). ring.
Qed.

Lemma eqv_trans (a b c : Np.ndarray Q) :
  Np.eqv a b -> Np.eqv b c -> Np.eqv a c.
Proof.
  unfold Np.eqv. intros Hab Hbc.
  eapply Forall2_trans; [|exact Hab|exact Hbc].
  intros r1 r2 r3 H12 H23.
  eapply Forall2_trans; [|exact H12|exact H23].
  intros x y z Hxy Hyz. rewrite Hxy. exact Hyz.
Qed.

Lemma topo_diffusion_pass_without_flux L W (self : VegetationModel) :
  grid_shaped L W self ->
  Np.all (fun x => x == 0) (qs (base self)) ->
  Np.eqv (eta (base (topo_diffusion_pass self))) (eta (base self)).
Proof.
  intros Hshape Hqs.
  pose proof Hshape as (He & Hq & Ht & Ha).
  apply (eqv_of_cells L W);
    [apply (topo_diffusion_pass_shape L W self Hshape) | exact He |].
  intros i j x y Hx Hy.
  destruct (has_shape_cell_lt L W _ i j y He Hy) as [Hi Hj].
  destruct (has_shape_cell L W _ i j Hq Hi Hj) as [q Hcq].
  destruct (has_shape_cell L W _ i j Ht Hi Hj) as [t Hct].
  destruct (has_shape_cell L W _ i j Ha Hi Hj) as [al Hca].
  rewrite (topo_diffusion_pass_cell self i j y q t al Hy Hcq Hct Hca) in Hx.
  inversion Hx; subst x. clear Hx.
  destruct (Nat.eqb i 0); [ring|].
  destruct (t =? -2)%Z; [ring|].
  rewrite (all_cell _ _ i j q Hqs Hcq).
  rewrite (convolve_at_zero (qs (base self)) _ i j Hqs).
  rewrite (convolve_at_zero (Np.mul (qs (base self)) (eta (base self)))
             _ i j (all_zero_mul_l _ _ Hqs)).
  ring.
Qed.

(** X15: without sediment flux there is no diffusion: when [qs] is zero
    at every cell, [topo_diffusion] leaves the elevation numerically
    unchanged, whatever the stability field and the kernels. *)
Theorem topo_diffusion_without_flux (L W : nat) (self : VegetationModel) :
  grid_shaped L W self ->
  Np.all (fun x => x == 0) (qs (base self)) ->
  Np.eqv (eta (base (topo_diffusion self))) (eta (base self)).
Proof.
  intros Hshape Hqs. unfold topo_diffusion.
  induction (N_crossdiff (base self)) as [|n IH]; [apply eqv_refl|].
  rewrite Nat.iter_succ.
  eapply eqv_trans; [|exact IH].
  apply (topo_diffusion_pass_without_flux L W).
  - apply topo_diffusion_iter_shape, Hshape.
  - destruct (topo_diffusion_iter_untouched n self) as (Hq & _).
    rewrite Hq. exact Hqs.
Qed.

Lemma topo_diffusion_without_flux_witness :
  Np.eqv (eta (base (topo_diffusion (set_up example_host_no_flux))))
         (eta (base (set_up example_host_no_flux))).
Proof.
  apply (topo_diffusion_without_flux 3 3 (set_up example_host_no_flux)).
  - repeat split; repeat constructor.
  - vm_compute. repeat constructor.
Defined.

Lemma Qsum_cons (x : Q) (l : list Q) :
  Ndimage.Qsum (x :: l) = x + Ndimage.Qsum l.
Proof. reflexivity. Qed.

Lemma Qsum_imap_bounds {A} (P : A -> Prop) (g : A -> Q)
    (f : nat -> A -> Q) (l : list A) :
  Forall P l ->
  (forall p a, P a -> 0 <= f p a <= g a) ->
  0 <= Ndimage.Qsum (imap f l)
  <= Ndimage.Qsum (fmap (M:=list) g l).
Proof.
  intros Hl. revert f. induction Hl as [|a l Ha _ IH]; intros f Hf.
  - simpl. split; lra.
  - cbn [imap]. rewrite fmap_cons, !Qsum_cons.
    destruct (Hf 0%nat a Ha) as [H0 H1].
    destruct (IH (f ∘ S)) as [I0 I1]; [intros p a' Hp; apply Hf, Hp|].
    split; lra.
Qed.

Lemma Qsum_scale (c : Q) (l : list Q) :
  Ndimage.Qsum (fmap (M:=list) (Qmult c) l) == c * Ndimage.Qsum l.
Proof.
  induction l as [|x l IH]; [cbn; ring|].
  rewrite fmap_cons, !Qsum_cons, IH. ring.
Qed.

Lemma Qsum_fmap_ext {A} (g h : A -> Q) (l : list A) :
  (forall a, g a == h a) ->
  Ndimage.Qsum (fmap (M:=list) g l) == Ndimage.Qsum (fmap (M:=list) h l).
Proof.
  intros Hgh. induction l as [|a l IH]; [reflexivity|].
  rewrite !fmap_cons, !Qsum_cons, IH, (Hgh a). reflexivity.
Qed.

Lemma padded_bounds (a : Np.ndarray Q) (hi : Q) (i j : Z) :
  0 <= hi ->
  Np.all (fun x => 0 <= x <= hi) a ->
  0 <= Ndimage.padded a i j <= hi.
Proof.
  intros Hhi Ha. unfold Ndimage.padded.
  destruct ((i <? 0) || (j <? 0))%Z; [split; lra|].
  destruct (Np.cell a (Z.to_nat i) (Z.to_nat j)) as [x|] eqn:Hx.
  - exact (all_cell _ a _ _ x Ha Hx).
  - simpl. split; lra.
Qed.

Lemma convolve_at_bounds (a k : Np.ndarray Q) (hi : Q) (i j : nat) :
  0 <= hi ->
  Np.all (fun x => 0 <= x <= hi) a ->
  Np.all (fun w => 0 <= w) k ->
  0 <= Ndimage.convolve_at a k i j <= hi * kernel_total k.
Proof.
  intros Hhi Ha Hk. unfold Ndimage.convolve_at, kernel_total. cbv zeta.
  set (kh := Z.of_nat (length k)).
  set (kw := Z.of_nat (length (default [] (head k)))).
  pose proof (Qsum_imap_bounds (Forall (fun w => 0 <= w))
                (fun row => hi * Ndimage.Qsum row)
                (fun p wrow =>
                   Ndimage.Qsum
                     (imap (fun q w =>
                              w * Ndimage.padded a
                                    (Z.of_nat i + kh / 2 - Z.of_nat p)
                                    (Z.of_nat j + kw / 2 - Z.of_nat q))
                           wrow))
                k Hk) as Hout.
  destruct Hout as [H0 H1].
  - intros p row Hrow.
    pose proof (Qsum_imap_bounds (fun w => 0 <= w) (Qmult hi)
                  (fun q w =>
                     w * Ndimage.padded a
                           (Z.of_nat i + kh / 2 - Z.of_nat p)
                           (Z.of_nat j + kw / 2 - Z.of_nat q))
                  row Hrow) as Hin.
    destruct Hin as [I0 I1].
    + intros q w Hw.
      destruct (padded_bounds a hi (Z.of_nat i + kh / 2 - Z.of_nat p)
                  (Z.of_nat j + kw / 2 - Z.of_nat q) Hhi Ha) as [P0 P1].
      revert P0 P1. generalize (Ndimage.padded a
                                  (Z.of_nat i + kh / 2 - Z.of_nat p)
                                  (Z.of_nat j + kw / 2 - Z.of_nat q)).
      intros v P0 P1.
      split; [apply Qmult_le_0_compat; assumption|].
      assert (0 <= w * (hi - v)) by (apply Qmult_le_0_compat; lra).
      assert (w * (hi - v) == hi * w - w * v) by ring. lra.
    + rewrite Qsum_scale in I1. split; assumption.
  - split; [exact H0|].
    assert (E : Ndimage.Qsum
                  (fmap (M:=list) (fun row => hi * Ndimage.Qsum row) k)
                == hi * Ndimage.Qsum (fmap (M:=list) Ndimage.Qsum k)).
    { rewrite <- Qsum_scale, <- list_fmap_compose. reflexivity. }
    rewrite <- E. exact H1.
Qed.

Lemma veg_alpha_after_water_hook (self : VegetationModel) :
  Np.all (fun x => 0 <= x <= 1) (veg_frac self) ->
  Np.all (fun a => 0 <= a <= 0.1) (veg_alpha (hook_run_water_iteration self)).
Proof.
  intros Hfrac.
  change (veg_alpha (hook_run_water_iteration self))
    with (Np.amap (fun x => -0.099 * x + 0.1) (veg_frac self)).
  eapply all_amap_impl; [|exact Hfrac].
  intros x [H0 H1]. cbv beta. split; lra.
Qed.

(** X16: the factor by which [topo_diffusion] scales the flux is never
    negative once the pre-routing hook has run on fractions in [0,1]: for
    a kernel without negative entries, the stability field convolved with
    it lies between 0 and 0.1 times the kernel's total weight at every
    cell. *)
Theorem convolved_stability_bounds (self : VegetationModel) :
  Np.all (fun x => 0 <= x <= 1) (veg_frac self) ->
  Np.all (fun w => 0 <= w) (kernel2 (base self)) ->
  Np.all (fun d => 0 <= d <= 0.1 * kernel_total (kernel2 (base self)))
         (Ndimage.convolve (veg_alpha (hook_run_water_iteration self))
            (kernel2 (base (hook_run_water_iteration self)))).
Proof.
  intros Hfrac Hk.
  change (kernel2 (base (hook_run_water_iteration self)))
    with (kernel2 (base self)).
  apply all_of_cells. intros i j x Hx.
  apply cell_convolve_inv in Hx. subst x.
  apply convolve_at_bounds; [lra | | exact Hk].
  apply veg_alpha_after_water_hook, Hfrac.
Qed.

Lemma convolved_stability_bounds_witness :
  Np.all (fun d => 0 <= d <= 0.1 * kernel_total (kernel2 (base example_vegetated)))
         (Ndimage.convolve
            (veg_alpha (hook_run_water_iteration example_vegetated))
            (kernel2 (base (hook_run_water_iteration example_vegetated)))).
Proof.
  apply (convolved_stability_bounds example_vegetated).
  - vm_compute. repeat constructor; discriminate.
  - vm_compute. repeat constructor; discriminate.
Defined.

(** ** Set-up, further *)

Lemma hook_after_create_domain_ok_inv (self : DeltaModel)
    (s : VegetationModel) :
  hook_after_create_domain self = Ok s ->
  ~ p_veg_d_stem self == 0 /\ ~ p_veg_K self == 0 /\ s = set_up self.
Proof.
  intros Hs.
  destruct (Qeq_dec (p_veg_d_stem self) 0) as [Hd | Hd].
  { rewrite (hook_after_create_domain_raises self (or_introl Hd)) in Hs.
    discriminate. }
  destruct (Qeq_dec (p_veg_K self) 0) as [HK | HK].
  { rewrite (hook_after_create_domain_raises self (or_intror HK)) in Hs.
    discriminate. }
  rewrite (hook_after_create_domain_ok self Hd HK) in Hs.
  inversion Hs. auto.
Qed.

(** X17: what [hook_after_create_domain] derives when it succeeds.  The
    density threshold satisfies [veg_b * (d_stem * K) == 0.7]; the
    coefficient [veg_A] is [16 / (15 * pi * d_stem)], so it does not
    depend on the stem density; the growth rate is the yearly rate over
    the seconds of a year, the durations are the days times 86400; the
    timer starts at 0 and the elevation-change field at zero. *)
Theorem hook_after_create_domain_derived (self : DeltaModel)
    (s : VegetationModel) :
  hook_after_create_domain self = Ok s ->
  veg_b s * (p_veg_d_stem self * p_veg_K self) == 0.7
  /\ veg_A s * (15 * pi * p_veg_d_stem self) == 16
  /\ veg_r s * 31557600 == p_veg_r self
  /\ veg_est_flood_duration s == p_veg_est_flood_dur self * 86400
  /\ veg_est_interflood_duration s == p_veg_est_inter_dur self * 86400
  /\ time_since_interflood s = 0
  /\ Np.all (fun x => x = 0) (eta_change s)
  /\ coefficients_as_set_up s.
Proof.
  intros Hs.
  destruct (hook_after_create_domain_ok_inv self s Hs) as (Hd & HK & ->).
  pose proof pi_nonzero as Hpi.
  unfold set_up, coefficients_as_set_up.
  cbn [veg_b veg_A veg_r veg_est_flood_duration veg_est_interflood_duration
       time_since_interflood eta_change veg_d_stem veg_K].
  split; [field; split; assumption|].
  split; [field; repeat split; assumption|].
  split; [unfold sec_in_day, day_in_yr; field|].
  split; [unfold sec_in_day; reflexivity|].
  split; [unfold sec_in_day; reflexivity|].
  split; [reflexivity|].
  split; [apply all_amap; reflexivity|].
  split; reflexivity.
Qed.

Lemma hook_after_create_domain_derived_witness :
  veg_b (set_up example_host) * (0.06 * 800) == 0.7
  /\ veg_A (set_up example_host) * (15 * pi * 0.06) == 16.
Proof.
  destruct (hook_after_create_domain_derived example_host
              (set_up example_host)) as (Hb & HA & _).
  - vm_compute. reflexivity.
  - split; [exact Hb | exact HA].
Defined.

(** X18: a freshly set-up model has no effect on routing.  When set-up
    succeeds with a positive product [d_stem * K], the first call of
    [hook_run_water_iteration] writes the weight 1 and a stability
    coefficient equal to 0.1 at every cell of the grid. *)
Theorem fresh_model_weights (self : DeltaModel) (s : VegetationModel)
    (i j : nat) (d w0 : Q) :
  hook_after_create_domain self = Ok s ->
  0 < p_veg_d_stem self * p_veg_K self ->
  Np.cell (depth self) i j = Some d ->
  Np.cell (mod_water_weight self) i j = Some w0 ->
  Np.cell (mod_water_weight (base (hook_run_water_iteration s))) i j
  = Some 1
  /\ exists a, Np.cell (veg_alpha (hook_run_water_iteration s)) i j = Some a
               /\ a == 0.1.
Proof.
  intros Hs Hpos Hd Hw.
  destruct (hook_after_create_domain_ok_inv self s Hs) as (Hnd & HnK & ->).
  assert (Hf : Np.cell (veg_frac (set_up self)) i j = Some 0).
  { unfold set_up. cbn [veg_frac]. unfold Np.zeros_like.
    apply (cell_amap_Some (fun _ => 0) (depth self) i j d Hd). }
  split.
  - rewrite (water_weight_cell (set_up self) i j 0 w0 Hf Hw).
    assert (Hb : 0 < veg_b (set_up self)).
    { unfold set_up. cbn [veg_b].
      assert (E : 0.7 / p_veg_d_stem self / p_veg_K self
                  == 0.7 / (p_veg_d_stem self * p_veg_K self))
        by (field; split; assumption).
      rewrite E. apply Qlt_shift_div_l; [exact Hpos | lra]. }
    apply Qle_bool_false in Hb. rewrite Hb. reflexivity.
  - exists (-0.099 * 0 + 0.1). split; [|ring].
    change (veg_alpha (hook_run_water_iteration (set_up self)))
      with (Np.amap (fun x => -0.099 * x + 0.1) (veg_frac (set_up self))).
    apply (cell_amap_Some (fun x => -0.099 * x + 0.1) _ i j 0 Hf).
Qed.

Lemma fresh_model_weights_witness :
  Np.cell (mod_water_weight
             (base (hook_run_water_iteration (set_up example_host)))) 1 1
  = Some 1.
Proof.
  refine (proj1 (fresh_model_weights example_host (set_up example_host)
                   1 1 0.05 1 _ _ _ _)).
  - vm_compute. reflexivity.
  - Qcompare_closed.
  - reflexivity.
  - reflexivity.
Defined.

(** * The transect script *)

Lemma row5_spec (a : loaded_array) :
  (row5 a = IndexError <-> ~ has_sixth_row a)
  /\ (forall r, row5 a = Transects r <->
                exists rows, a = Array2 rows /\ rows !! 5%nat = Some r).
Proof.
  destruct a as [v | v | rows]; cbn [row5 has_sixth_row].
  - split; [tauto|]. intros r. split; [discriminate|].
    intros (rows & E & _). discriminate.
  - split; [tauto|]. intros r. split; [discriminate|].
    intros (rows & E & _). discriminate.
  - destruct (rows !! 5%nat) as [row|] eqn:H.
    + pose proof (lookup_lt_Some _ _ _ H) as Hlt. split.
      * split; [discriminate | lia].
      * intros r. split.
        -- intros E. inversion E; subst r. exists rows. split; [reflexivity | exact H].
        -- intros (rows' & E & H'). inversion E; subst rows'.
           rewrite H in H'. inversion H'. reflexivity.
    + pose proof (proj1 (lookup_ge_None _ _) H) as Hge. split.
      * split; [intros _; lia | reflexivity].
      * intros r. split; [discriminate|].
        intros (rows' & E & H'). inversion E; subst rows'.
        rewrite H in H'. discriminate.
Qed.

(** X20: the transect script.  It fails with [IndexError] exactly when one
    of the x, y, z or vegetation grids, as loaded, is not a two-dimensional
    array with at least six rows (a grid file of a single row or a single
    column loads as a one-dimensional array and fails whatever its
    length); otherwise it writes the sixth row of each of them, and as the
    fifth output the sixth row of the z grid lowered by 0.011 at every
    column.  The fifth input grid does not influence any output. *)
Theorem filter_grid_transects (x_o y_o z_o veg_o ne_o : loaded_array) :
  (filter_grid x_o y_o z_o veg_o ne_o = IndexError <->
   ~ has_sixth_row x_o \/ ~ has_sixth_row y_o \/ ~ has_sixth_row z_o
   \/ ~ has_sixth_row veg_o)
  /\ (forall t, filter_grid x_o y_o z_o veg_o ne_o = Transects t ->
        row5 x_o = Transects (x_grd t)
        /\ row5 y_o = Transects (y_grd t)
        /\ row5 z_o = Transects (z_grd t)
        /\ row5 veg_o = Transects (veg_grd t)
        /\ ne_grd t = fmap (M:=list) (fun v => v - 0.011) (z_grd t)
        /\ length (ne_grd t) = length (z_grd t))
  /\ (forall v, filter_grid (Array1 v) y_o z_o veg_o ne_o = IndexError
                /\ filter_grid x_o (Array1 v) z_o veg_o ne_o = IndexError
                /\ filter_grid x_o y_o (Array1 v) veg_o ne_o = IndexError
                /\ filter_grid x_o y_o z_o (Array1 v) ne_o = IndexError)
  /\ (forall ne_o',
        filter_grid x_o y_o z_o veg_o ne_o'
        = filter_grid x_o y_o z_o veg_o ne_o).
Proof.
  split; [|split; [|split; [|reflexivity]]].
  - unfold filter_grid.
    destruct (row5_spec x_o) as [Hx _]. destruct (row5_spec y_o) as [Hy _].
    destruct (row5_spec z_o) as [Hz _]. destruct (row5_spec veg_o) as [Hv _].
    destruct (row5 x_o); [|intuition].
    destruct (row5 y_o); [|intuition].
    destruct (row5 z_o); [|intuition].
    destruct (row5 veg_o); [|intuition].
    split; [discriminate|].
    intros [H | [H | [H | H]]];
      [apply Hx in H | apply Hy in H | apply Hz in H | apply Hv in H];
      discriminate.
  - intros t. unfold filter_grid.
    destruct (row5 x_o) as [x|]; [|discriminate].
    destruct (row5 y_o) as [y|]; [|discriminate].
    destruct (row5 z_o) as [z|]; [|discriminate].
    destruct (row5 veg_o) as [veg|]; [|discriminate].
    intros E. inversion E; subst t. cbn [x_grd y_grd z_grd veg_grd ne_grd].
    repeat split; try reflexivity.
    apply length_fmap.
  - intros v. unfold filter_grid. cbn [row5].
    split; [reflexivity|].
    destruct (row5 x_o); [|repeat split; reflexivity].
    split; [reflexivity|].
    destruct (row5 y_o); [|repeat split; reflexivity].
    split; [reflexivity|].
    destruct (row5 z_o); reflexivity.
Qed.

(** * The configuration and output hooks *)

Lemma hook_import_files_union (m : gmap string parameter) :
  hook_import_files m = hook_import_files ∅ ∪ m.
Proof.
  unfold hook_import_files. cbv zeta.
  rewrite <- !insert_union_l. rewrite (left_id_L ∅ (∪)). reflexivity.
Qed.

Lemma hook_import_files_defaults_not_named (k : string) :
  k ∉ vegetation_parameter_names -> hook_import_files ∅ !! k = None.
Proof.
  unfold vegetation_parameter_names, hook_import_files. intros Hk. cbv zeta.
  repeat (apply not_elem_of_cons in Hk as [? Hk]).
  rewrite !lookup_insert_ne by congruence. apply lookup_empty.
Qed.

Lemma hook_import_files_defaults_named (k : string) :
  k ∈ vegetation_parameter_names ->
  exists p, hook_import_files ∅ !! k = Some p /\ default_has_declared_type p.
Proof.
  unfold vegetation_parameter_names. intros Hk.
  repeat (apply elem_of_cons in Hk as [-> | Hk]);
    try (eexists; split; [vm_compute; reflexivity|];
         unfold default_has_declared_type; cbn;
         first [reflexivity | set_solver]).
  apply elem_of_nil in Hk. contradiction.
Qed.

(** X21: [hook_import_files] defines the eleven vegetation parameters and
    nothing else.  Every other entry of the host's parameter dictionary is
    left as it was; each of the eleven names is defined afterwards, with
    an entry that does not depend on what was there before; and calling
    the hook a second time changes nothing. *)
Theorem hook_import_files_defines_vegetation_parameters
    (subclass_parameters : gmap string parameter) :
  (forall k, k ∉ vegetation_parameter_names ->
     hook_import_files subclass_parameters !! k = subclass_parameters !! k)
  /\ (forall k, k ∈ vegetation_parameter_names ->
        is_Some (hook_import_files subclass_parameters !! k)
        /\ hook_import_files subclass_parameters !! k
           = hook_import_files ∅ !! k)
  /\ hook_import_files (hook_import_files subclass_parameters)
     = hook_import_files subclass_parameters.
Proof.
  split; [|split].
  - intros k Hk. rewrite hook_import_files_union.
    apply lookup_union_r, hook_import_files_defaults_not_named, Hk.
  - intros k Hk.
    destruct (hook_import_files_defaults_named k Hk) as (p & Hp & _).
    rewrite hook_import_files_union.
    rewrite (lookup_union_Some_l _ _ k p Hp), Hp. split; [eauto|reflexivity].
  - rewrite (hook_import_files_union (hook_import_files _)).
    rewrite (hook_import_files_union subclass_parameters).
    rewrite (assoc_L (∪)), (idemp_L (∪)). reflexivity.
Qed.

(** X22: every default [hook_import_files] declares is of the type, or of
    one of the types, it declares for that parameter. *)
Theorem hook_import_files_defaults_typed
    (subclass_parameters : gmap string parameter) (k : string)
    (p : parameter) :
  k ∈ vegetation_parameter_names ->
  hook_import_files subclass_parameters !! k = Some p ->
  default_has_declared_type p.
Proof.
  intros Hk Hp.
  destruct (hook_import_files_defaults_named k Hk) as (p' & Hp' & Ht).
  rewrite hook_import_files_union in Hp.
  rewrite (lookup_union_Some_l _ _ k p' Hp') in Hp.
  inversion Hp; subst p. exact Ht.
Qed.

Lemma hook_import_files_defaults_typed_witness :
  default_has_declared_type
    (mkParameter (TypeNames ["int"; "float"]%string) (PyInt 800)).
Proof.
  apply (hook_import_files_defaults_typed ∅ "p_veg_K"%string).
  - vm_compute. set_solver.
  - vm_compute. reflexivity.
Defined.

(** X23: [hook_init_output_file] always registers the grid variable
    ["veg_frac"], registers the figure of that name only when
    [save_veg_frac_figs] is set, leaves every other entry of both
    dictionaries as it was, and has the same effect when called twice. *)
Theorem hook_init_output_file_registers_veg_frac
    (save_veg_frac_figs : bool) (self : output_lists) :
  _save_var_list (hook_init_output_file save_veg_frac_figs self)
    !! "veg_frac"%string
  = Some (mkVariableEntry "veg_frac" "fraction" "f4"
            ["time"; "x"; "y"]%string)
  /\ (is_Some (_save_fig_list (hook_init_output_file save_veg_frac_figs self)
                 !! "veg_frac"%string)
      <-> save_veg_frac_figs = true
          \/ is_Some (_save_fig_list self !! "veg_frac"%string))
  /\ (forall k, k <> "veg_frac"%string ->
        _save_var_list (hook_init_output_file save_veg_frac_figs self) !! k
        = _save_var_list self !! k
        /\ _save_fig_list (hook_init_output_file save_veg_frac_figs self) !! k
           = _save_fig_list self !! k)
  /\ hook_init_output_file save_veg_frac_figs
       (hook_init_output_file save_veg_frac_figs self)
     = hook_init_output_file save_veg_frac_figs self.
Proof.
  unfold hook_init_output_file. cbn [_save_var_list _save_fig_list].
  split; [apply lookup_insert_eq|]. split; [|split].
  - destruct save_veg_frac_figs.
    + rewrite lookup_insert_eq. split; [auto | eauto].
    + split; [auto | intros [H | H]; [discriminate | exact H]].
  - intros k Hk. split.
    + apply lookup_insert_ne. congruence.
    + destruct save_veg_frac_figs; [|reflexivity].
      apply lookup_insert_ne. congruence.
  - rewrite insert_insert_eq.
    destruct save_veg_frac_figs; [rewrite insert_insert_eq|]; reflexivity.
Qed.

(** * Vegetation disabled, over time *)

Lemma clip_in_range (a : Np.ndarray Q) :
  Np.all (fun x => 0 <= x <= 1) (Np.clip a 0 1).
Proof. unfold Np.clip. apply all_amap. intros x. apply Qclip_bounds. lra. Qed.

(** X24: with vegetation disabled, any number of calls of
    [hook_after_route_sediment] (with anything in between that leaves the
    fraction alone) leaves a fraction field in [0,1] numerically
    unchanged; in particular a field of zeros stays a field of zeros,
    whatever the elevation does. *)
Theorem disabled_vegetation_never_changes
    (gs : list (VegetationModel -> VegetationModel))
    (self : VegetationModel) :
  Forall keeps_fraction gs ->
  vegetation (base self) = false ->
  Np.all (fun x => 0 <= x <= 1) (veg_frac self) ->
  Np.eqv (veg_frac (post_route_calls gs self)) (veg_frac self)
  /\ vegetation (base (post_route_calls gs self)) = false.
Proof.
  intros Hgs. revert self.
  induction Hgs as [|g gs Hg _ IH]; intros self Hoff Hrange.
  - split; [apply eqv_refl | exact Hoff].
  - change (post_route_calls (g :: gs) self)
      with (post_route_calls gs (hook_after_route_sediment (g self))).
    destruct (Hg self) as (Gf & Gv).
    assert (Hoff' : vegetation (base (g self)) = false)
      by (rewrite Gv; exact Hoff).
    pose proof (hook_after_route_sediment_unfold (g self)) as Hu.
    cbv zeta in Hu. rewrite Hoff' in Hu.
    assert (Hfrac : veg_frac (hook_after_route_sediment (g self))
                    = Np.clip (veg_frac self) 0 1).
    { rewrite Hu, veg_frac_set_veg_frac.
      change (veg_frac (set_eta_change _ (g self))) with (veg_frac (g self)).
      rewrite Gf. reflexivity. }
    destruct (hook_after_route_sediment_frame (g self)) as (_ & _ & Fv).
    destruct (IH (hook_after_route_sediment (g self))) as (IHe & IHv).
    { rewrite Fv. exact Hoff'. }
    { rewrite Hfrac. apply clip_in_range. }
    split; [|exact IHv].
    eapply eqv_trans; [exact IHe|].
    rewrite Hfrac. apply eqv_clip_in_range, Hrange.
Qed.

Lemma example_step_keeps_fraction : keeps_fraction example_step.
Proof.
  intros s. unfold example_step, topo_diffusion.
  destruct (topo_diffusion_iter_untouched
              (N_crossdiff (base (hook_run_water_iteration s)))
              (hook_run_water_iteration s)) as (_ & _ & _ & _ & _ & Hf).
  destruct (topo_diffusion_keeps_call_log (hook_run_water_iteration s))
    as (_ & Hv).
  unfold topo_diffusion in Hv.
  rewrite Hf, Hv. split; reflexivity.
Qed.

Lemma disabled_vegetation_never_changes_witness :
  Np.eqv (veg_frac (post_route_calls (replicate 100 example_step)
                      (set_up example_host_off)))
         (veg_frac (set_up example_host_off)).
Proof.
  refine (proj1 (disabled_vegetation_never_changes
                   (replicate 100 example_step) (set_up example_host_off)
                   _ _ _)).
  - apply Forall_replicate, example_step_keeps_fraction.
  - reflexivity.
  - vm_compute. repeat constructor; discriminate.
Defined.
